(** * Aqualink (TypeScript): a shallow embedding of the orchestration core

    The development follows the source files one module per class:
    [Queue], [Player] (the guild session and its event handlers),
    [Connection] (the voice link), [Rest] (the request client), [Node]
    (the node connection) and [Aqua] (the registry and node pool).

    JavaScript numbers that the code uses as counters, positions and
    clock readings are integers of [Z]; strings are [string]; a value
    that may be [null] or [undefined] is an [option]. A method that can
    throw runs in the monad [M], which keeps the mutations made before
    the throw, as JavaScript does. Calls the code makes on its
    collaborators (event emission, gateway frames, REST patches) are
    recorded in an effect log in the order the code issues them. *)

From Stdlib Require Import ZArith QArith List String Ascii Bool Lia.
From Stdlib Require Import Permutation Sorted.
From stdpp Require Import base option list gmap strings pretty.
Import ListNotations.

Local Open Scope string_scope.
Local Open Scope list_scope.
Local Open Scope Z_scope.

(** ** Exceptions and the state-and-exception monad *)

Inductive Error :=
| Err (msg : string)            (* throw new Error(msg) *)
| TypeErr (msg : string)        (* TypeError, thrown by the code or the runtime *)
| ReferenceErr (msg : string)   (* throw new ReferenceError(msg) *)
| SyntaxErr (msg : string).     (* SyntaxError, thrown by [JSON.parse] *)

Inductive Result (A : Type) :=
| Ok (a : A)
| Throw (e : Error).
Arguments Ok {A} a.
Arguments Throw {A} e.

Definition M (S A : Type) : Type := S -> Result A * S.

Definition ret {S A} (a : A) : M S A := fun s => (Ok a, s).

Definition bind {S A B} (m : M S A) (k : A -> M S B) : M S B :=
  fun s => match m s with
           | (Ok a, s') => k a s'
           | (Throw e, s') => (Throw e, s')
           end.

Definition throw {S A} (e : Error) : M S A := fun s => (Throw e, s).
Definition modify {S} (f : S -> S) : M S unit := fun s => (Ok tt, f s).

Definition state {S} : M S S := fun s => (Ok s, s).

(** [try { m } catch (e) { h e }]: the mutations made before the throw
    stay. *)
Definition catch {S A} (m : M S A) (h : Error -> M S A) : M S A :=
  fun s => match m s with
           | (Ok a, s') => (Ok a, s')
           | (Throw e, s') => h e s'
           end.


(** [m] keeps the property [P] of the state, whether it returns or
    throws. *)
Definition preserves {S A} (P : S -> Prop) (m : M S A) : Prop :=
  forall s, P s -> P (snd (m s)).

Declare Scope js_scope.
Delimit Scope js_scope with js.
Notation "'do' x <- m ; k" := (bind m (fun x => k))
  (at level 10, x name, m at level 100, k at level 200) : js_scope.
Notation "m >> k" := (bind m (fun _ => k))
  (at level 90, right associativity) : js_scope.
Local Open Scope js_scope.

(** JavaScript truthiness of a [string | null | undefined] value. *)
Definition truthy (o : option string) : bool :=
  match o with
  | Some s => negb (String.eqb s "")
  | None => false
  end.

(** [s.replace(c, "")] with a one-character pattern: the first
    occurrence only. *)
Fixpoint remove_first (c : ascii) (s : string) : string :=
  match s with
  | EmptyString => EmptyString
  | String a s' =>
      if Ascii.eqb a c then s' else String a (remove_first c s')
  end.

Definition lower_ascii (a : ascii) : ascii :=
  let n := nat_of_ascii a in
  if ((65 <=? n) && (n <=? 90))%nat then ascii_of_nat (n + 32) else a.

Definition is_digit (a : ascii) : bool :=
  let n := nat_of_ascii a in ((48 <=? n) && (n <=? 57))%nat.

(** [s.replace(/[0-9]/g, "")] *)
Fixpoint strip_digits (s : string) : string :=
  match s with
  | EmptyString => EmptyString
  | String a s' =>
      if is_digit a then strip_digits s' else String a (strip_digits s')
  end.

(** [s.split('.')[0]] *)
Fixpoint first_segment (s : string) : string :=
  match s with
  | EmptyString => EmptyString
  | String a s' =>
      if Ascii.eqb a "."%char then EmptyString else String a (first_segment s')
  end.

(** [s.toLowerCase()] on the ASCII range. *)
Fixpoint toLowerCase (s : string) : string :=
  match s with
  | EmptyString => EmptyString
  | String a s' => String (lower_ascii a) (toLowerCase s')
  end.

(** ** Tracks, queue items and effects *)

(** Track.ts: the core reads only [track] (the engine-issued token);
    the metadata is carried along. *)
Record Track := {
  track : option string;
  identifier : string;
  author : string;
  title : string
}.

(** What a [Queue<any>] slot or [Player.current] can hold at run time:
    a track, the promise that [Track.resolve] returns (the code does not
    await it), or [null]. *)
Inductive Item :=
| ITrack (t : Track)
| IPromise (t : Track)
| INull.

(** [item?.track] *)
Definition item_token (i : Item) : option string :=
  match i with
  | ITrack t => track t
  | IPromise _ => None
  | INull => None
  end.

Inductive LoopMode := LoopNone | LoopTrack | LoopQueue.

Definition loop_name (m : LoopMode) : string :=
  match m with
  | LoopNone => "none"
  | LoopTrack => "track"
  | LoopQueue => "queue"
  end.

(** The voice credential triple held by the voice link. *)
Record Voice := {
  sessionId : option string;
  endpoint : option string;
  token : option string
}.

(** The [data] document of a player-update patch issued by the session
    or by its voice link. *)
Inductive Patch :=
| PVoice (voice : Voice) (volume : Z)
| PTrack (encoded : option string)   (* { track: { encoded } }, [None] is null *)
| PTrackMissing                      (* { track: { encoded: undefined } } *)
| PPaused (paused : bool)
| PPosition (position : Z)
| PVolume (volume : Z)
| PLoop (mode : LoopMode)
| PTextChannel (channel : string).

Inductive Effect :=
| Emit (event : string) (subject : option Item)
                                          (* aqua.emit(event, player[, track, ...]) *)
| Debug (msg : string)                    (* aqua.emit("debug", guildId, msg) *)
| UpdatePlayer (guildId : string) (data : Patch)
                                          (* nodes.rest.updatePlayer({guildId, data}) *)
| Send (guild_id : string) (channel_id : option string)
       (self_deaf self_mute : option bool) (* aqua.send({op: 4, d}) *)
| DeleteMessage                           (* nowPlayingMessage.delete() *)
| Unhandled (e : Error).                  (* a promise rejected with [e] that
                                             nothing awaits or catches *)

(** ** Queue (an [Array] subclass) *)

Module Queue.

Definition t := list Item.

Definition isEmpty (q : t) : bool :=
  match q with [] => true | _ => false end.

(** [shift()] removes and returns the first element. *)
Definition shift (q : t) : option Item * t :=
  match q with
  | [] => (None, [])
  | x :: q' => (Some x, q')
  end.

Definition unshift (x : Item) (q : t) : t := x :: q.
Definition push (x : Item) (q : t) : t := q ++ [x].
Definition clear (q : t) : t := [].

End Queue.

(** ** Player (the guild session) *)

(** Values a caller can keep in the per-session store. *)
Inductive JSValue :=
| VUndefined
| VBool (b : bool)
| VNum (n : Z)
| VStr (s : string).

(** A key handed to the store: an object, by reference, or a primitive
    value. *)
Inductive Key :=
| KObject (ref : positive)
| KPrimitive (v : JSValue).

(** A node object, by reference. *)
Definition NodeRef := positive.

Module Player.

(** The fields of [class Player]. [connection] and [filters] have their
    own classes; [data] is never read or written after construction. *)
Record t := {
  guildId : string;
  textChannel : option string;
  voiceChannel : option string;
  mute : bool;
  deaf : bool;
  volume : Z;
  loop : LoopMode;
  queue : Queue.t;
  position : Z;
  current : Item;
  playing : bool;
  paused : bool;
  connected : bool;
  timestamp : Z;
  ping : Z;
  nowPlayingMessage : bool;
  previousTracks : list Item;
  shouldDeleteMessage : bool;
  dataStore : option (gmap positive JSValue);
  listening : bool;
  nodes : NodeRef
}.

(** [nowPlayingMessage] is [true] while a message object is held;
    [dataStore] is the private [#dataStore], [None] while it is
    [undefined], and otherwise the entries of the [WeakMap], which are
    keyed by object reference; [listening] says that the two bound
    listeners are registered; [nodes] is the node given to the
    constructor. *)

Definition set_voiceChannel (v : option string) (p : t) : t :=
  {| guildId := guildId p; textChannel := textChannel p; voiceChannel := v;
     mute := mute p; deaf := deaf p; volume := volume p; loop := loop p;
     queue := queue p; position := position p; current := current p;
     playing := playing p; paused := paused p; connected := connected p;
     timestamp := timestamp p; ping := ping p;
     nowPlayingMessage := nowPlayingMessage p;
     previousTracks := previousTracks p;
     shouldDeleteMessage := shouldDeleteMessage p; dataStore := dataStore p;
     listening := listening p; nodes := nodes p |}.

Definition set_volume (v : Z) (p : t) : t :=
  {| guildId := guildId p; textChannel := textChannel p;
     voiceChannel := voiceChannel p; mute := mute p; deaf := deaf p;
     volume := v; loop := loop p; queue := queue p; position := position p;
     current := current p; playing := playing p; paused := paused p;
     connected := connected p; timestamp := timestamp p; ping := ping p;
     nowPlayingMessage := nowPlayingMessage p;
     previousTracks := previousTracks p;
     shouldDeleteMessage := shouldDeleteMessage p; dataStore := dataStore p;
     listening := listening p; nodes := nodes p |}.

Definition set_loop (v : LoopMode) (p : t) : t :=
  {| guildId := guildId p; textChannel := textChannel p;
     voiceChannel := voiceChannel p; mute := mute p; deaf := deaf p;
     volume := volume p; loop := v; queue := queue p; position := position p;
     current := current p; playing := playing p; paused := paused p;
     connected := connected p; timestamp := timestamp p; ping := ping p;
     nowPlayingMessage := nowPlayingMessage p;
     previousTracks := previousTracks p;
     shouldDeleteMessage := shouldDeleteMessage p; dataStore := dataStore p;
     listening := listening p; nodes := nodes p |}.

Definition set_queue (v : Queue.t) (p : t) : t :=
  {| guildId := guildId p; textChannel := textChannel p;
     voiceChannel := voiceChannel p; mute := mute p; deaf := deaf p;
     volume := volume p; loop := loop p; queue := v; position := position p;
     current := current p; playing := playing p; paused := paused p;
     connected := connected p; timestamp := timestamp p; ping := ping p;
     nowPlayingMessage := nowPlayingMessage p;
     previousTracks := previousTracks p;
     shouldDeleteMessage := shouldDeleteMessage p; dataStore := dataStore p;
     listening := listening p; nodes := nodes p |}.

Definition set_position (v : Z) (p : t) : t :=
  {| guildId := guildId p; textChannel := textChannel p;
     voiceChannel := voiceChannel p; mute := mute p; deaf := deaf p;
     volume := volume p; loop := loop p; queue := queue p; position := v;
     current := current p; playing := playing p; paused := paused p;
     connected := connected p; timestamp := timestamp p; ping := ping p;
     nowPlayingMessage := nowPlayingMessage p;
     previousTracks := previousTracks p;
     shouldDeleteMessage := shouldDeleteMessage p; dataStore := dataStore p;
     listening := listening p; nodes := nodes p |}.

Definition set_current (v : Item) (p : t) : t :=
  {| guildId := guildId p; textChannel := textChannel p;
     voiceChannel := voiceChannel p; mute := mute p; deaf := deaf p;
     volume := volume p; loop := loop p; queue := queue p;
     position := position p; current := v; playing := playing p;
     paused := paused p; connected := connected p; timestamp := timestamp p;
     ping := ping p; nowPlayingMessage := nowPlayingMessage p;
     previousTracks := previousTracks p;
     shouldDeleteMessage := shouldDeleteMessage p; dataStore := dataStore p;
     listening := listening p; nodes := nodes p |}.

Definition set_playing (v : bool) (p : t) : t :=
  {| guildId := guildId p; textChannel := textChannel p;
     voiceChannel := voiceChannel p; mute := mute p; deaf := deaf p;
     volume := volume p; loop := loop p; queue := queue p;
     position := position p; current := current p; playing := v;
     paused := paused p; connected := connected p; timestamp := timestamp p;
     ping := ping p; nowPlayingMessage := nowPlayingMessage p;
     previousTracks := previousTracks p;
     shouldDeleteMessage := shouldDeleteMessage p; dataStore := dataStore p;
     listening := listening p; nodes := nodes p |}.

Definition set_paused (v : bool) (p : t) : t :=
  {| guildId := guildId p; textChannel := textChannel p;
     voiceChannel := voiceChannel p; mute := mute p; deaf := deaf p;
     volume := volume p; loop := loop p; queue := queue p;
     position := position p; current := current p; playing := playing p;
     paused := v; connected := connected p; timestamp := timestamp p;
     ping := ping p; nowPlayingMessage := nowPlayingMessage p;
     previousTracks := previousTracks p;
     shouldDeleteMessage := shouldDeleteMessage p; dataStore := dataStore p;
     listening := listening p; nodes := nodes p |}.

Definition set_connected (v : bool) (p : t) : t :=
  {| guildId := guildId p; textChannel := textChannel p;
     voiceChannel := voiceChannel p; mute := mute p; deaf := deaf p;
     volume := volume p; loop := loop p; queue := queue p;
     position := position p; current := current p; playing := playing p;
     paused := paused p; connected := v; timestamp := timestamp p;
     ping := ping p; nowPlayingMessage := nowPlayingMessage p;
     previousTracks := previousTracks p;
     shouldDeleteMessage := shouldDeleteMessage p; dataStore := dataStore p;
     listening := listening p; nodes := nodes p |}.

Definition set_timestamp (v : Z) (p : t) : t :=
  {| guildId := guildId p; textChannel := textChannel p;
     voiceChannel := voiceChannel p; mute := mute p; deaf := deaf p;
     volume := volume p; loop := loop p; queue := queue p;
     position := position p; current := current p; playing := playing p;
     paused := paused p; connected := connected p; timestamp := v;
     ping := ping p; nowPlayingMessage := nowPlayingMessage p;
     previousTracks := previousTracks p;
     shouldDeleteMessage := shouldDeleteMessage p; dataStore := dataStore p;
     listening := listening p; nodes := nodes p |}.

Definition set_ping (v : Z) (p : t) : t :=
  {| guildId := guildId p; textChannel := textChannel p;
     voiceChannel := voiceChannel p; mute := mute p; deaf := deaf p;
     volume := volume p; loop := loop p; queue := queue p;
     position := position p; current := current p; playing := playing p;
     paused := paused p; connected := connected p; timestamp := timestamp p;
     ping := v; nowPlayingMessage := nowPlayingMessage p;
     previousTracks := previousTracks p;
     shouldDeleteMessage := shouldDeleteMessage p; dataStore := dataStore p;
     listening := listening p; nodes := nodes p |}.

Definition set_nowPlayingMessage (v : bool) (p : t) : t :=
  {| guildId := guildId p; textChannel := textChannel p;
     voiceChannel := voiceChannel p; mute := mute p; deaf := deaf p;
     volume := volume p; loop := loop p; queue := queue p;
     position := position p; current := current p; playing := playing p;
     paused := paused p; connected := connected p; timestamp := timestamp p;
     ping := ping p; nowPlayingMessage := v;
     previousTracks := previousTracks p;
     shouldDeleteMessage := shouldDeleteMessage p; dataStore := dataStore p;
     listening := listening p; nodes := nodes p |}.

Definition set_previousTracks (v : list Item) (p : t) : t :=
  {| guildId := guildId p; textChannel := textChannel p;
     voiceChannel := voiceChannel p; mute := mute p; deaf := deaf p;
     volume := volume p; loop := loop p; queue := queue p;
     position := position p; current := current p; playing := playing p;
     paused := paused p; connected := connected p; timestamp := timestamp p;
     ping := ping p; nowPlayingMessage := nowPlayingMessage p;
     previousTracks := v; shouldDeleteMessage := shouldDeleteMessage p;
     dataStore := dataStore p; listening := listening p; nodes := nodes p |}.

Definition set_dataStore (v : option (gmap positive JSValue)) (p : t) : t :=
  {| guildId := guildId p; textChannel := textChannel p;
     voiceChannel := voiceChannel p; mute := mute p; deaf := deaf p;
     volume := volume p; loop := loop p; queue := queue p;
     position := position p; current := current p; playing := playing p;
     paused := paused p; connected := connected p; timestamp := timestamp p;
     ping := ping p; nowPlayingMessage := nowPlayingMessage p;
     previousTracks := previousTracks p;
     shouldDeleteMessage := shouldDeleteMessage p; dataStore := v;
     listening := listening p; nodes := nodes p |}.

Definition set_listening (v : bool) (p : t) : t :=
  {| guildId := guildId p; textChannel := textChannel p;
     voiceChannel := voiceChannel p; mute := mute p; deaf := deaf p;
     volume := volume p; loop := loop p; queue := queue p;
     position := position p; current := current p; playing := playing p;
     paused := paused p; connected := connected p; timestamp := timestamp p;
     ping := ping p; nowPlayingMessage := nowPlayingMessage p;
     previousTracks := previousTracks p;
     shouldDeleteMessage := shouldDeleteMessage p; dataStore := dataStore p;
     listening := v; nodes := nodes p |}.

(** Player methods run over the session object and the effect log. *)
Definition St : Type := t * list Effect.
Definition Method (A : Type) : Type := M St A.

Definition this : Method t := fun s => (Ok (fst s), s).
Definition update (f : t -> t) : Method unit :=
  modify (fun s => (f (fst s), snd s)).
Definition effect (e : Effect) : Method unit :=
  modify (fun s => (fst s, snd s ++ [e])).
Definition when (b : bool) (m : Method unit) : Method unit :=
  if b then m else ret tt.

Record PlayerOptions := {
  opt_guildId : string;
  opt_textChannel : option string;
  opt_voiceChannel : option string;
  opt_mute : option bool;
  opt_deaf : option bool;
  opt_defaultVolume : option Z;
  opt_loop : option LoopMode;
  opt_shouldDeleteMessage : option bool
}.

(** [constructor(aqua, nodes, options)]. No statement of the constructor
    assigns [#dataStore]: the field is declared without an initializer. *)
Definition new (node : NodeRef) (o : PlayerOptions) : t :=
  {| guildId := opt_guildId o;
     textChannel := opt_textChannel o;
     voiceChannel := opt_voiceChannel o;
     mute := default false (opt_mute o);
     deaf := default false (opt_deaf o);
     volume := default 100 (opt_defaultVolume o);
     loop := default LoopNone (opt_loop o);
     queue := [];
     position := 0;
     current := INull;
     playing := false;
     paused := false;
     connected := false;
     timestamp := 0;
     ping := 0;
     nowPlayingMessage := false;
     previousTracks := [];
     shouldDeleteMessage := default true (opt_shouldDeleteMessage o);
     dataStore := None;
     listening := true;
     nodes := node |}.

(** [async updatePlayer(data)]: hands the patch to the REST client of the
    bound node; a failure there rejects a promise nobody awaits. *)
Definition updatePlayer (data : Patch) : Method unit :=
  do p <- this; effect (UpdatePlayer (guildId p) data).

(** [send(data)], with the members of [data]. *)
Definition send (guild : string) (channel : option string)
    (self_deaf self_mute : option bool) : Method unit :=
  effect (Send guild channel self_deaf self_mute).

Record PlayerState := {
  st_connected : bool;
  st_position : Z;
  st_ping : Z;
  st_time : Z
}.

(** [onPlayerUpdate(packet)], with [state] the [packet?.state] member. *)
Definition onPlayerUpdate (state : option PlayerState) : Method unit :=
  match state with
  | None => ret tt
  | Some st =>
      update (set_connected (st_connected st)) >>
      update (set_position (st_position st)) >>
      update (set_ping (st_ping st)) >>
      update (set_timestamp (st_time st)) >>
      effect (Emit "playerUpdate" None)
  end.

Definition addToPreviousTrack (x : Item) : Method unit :=
  do p <- this;
  when (50 <=? Z.of_nat (length (previousTracks p)))
       (update (fun p => set_previousTracks (removelast (previousTracks p)) p)) >>
  update (fun p => set_previousTracks (x :: previousTracks p) p).

Definition show_token (o : option string) : string :=
  match o with Some s => s | None => "undefined" end.

(** [{ track: { encoded: this.current?.track } }]: the token of a track;
    a promise and [null] have no [track] member. *)
Definition track_patch (cur : Item) : Patch :=
  match cur with
  | ITrack t => PTrack (track t)
  | IPromise _ | INull => PTrackMissing
  end.

(** [play()] *)
Definition play : Method unit :=
  do p <- this;
  if negb (connected p) then throw (Err "Player must be connected first.")
  else
    match Queue.shift (queue p) with
    | (None, _) => ret tt
    | (Some item, rest) =>
        update (set_queue rest) >>
        do cur <- match item with
                  | ITrack t =>
                      ret (if truthy (track t) then ITrack t else IPromise t)
                  | IPromise _ =>
                      throw (TypeErr "track.resolve is not a function")
                  | INull =>
                      throw (TypeErr
                        "Cannot read properties of null (reading 'track')")
                  end;
        update (set_current cur) >>
        update (set_playing true) >>
        update (set_position 0) >>
        effect (Debug ("Playing track: " +:+ show_token (item_token cur))) >>
        updatePlayer (track_patch cur)
    end.

(** [connect(options)] *)
Definition connect (guild channel : string) (deaf_ mute_ : option bool)
  : Method unit :=
  do p <- this;
  if connected p then throw (Err "Player is already connected.")
  else
    send guild (Some channel)
         (Some (default true deaf_)) (Some (default false mute_)) >>
    update (set_connected true) >>
    effect (Debug ("Player connected to voice channel: " +:+ channel +:+ ".")).

(** [destroy()] *)
Definition destroy : Method unit :=
  do p <- this;
  if negb (connected p) then ret tt
  else
    updatePlayer (PTrack None) >>
    update (fun p => set_queue (Queue.clear (queue p)) p) >>
    update (set_current INull) >>
    update (set_previousTracks []) >>
    update (set_playing false) >>
    update (set_position 0) >>
    send (guildId p) None None None >>
    update (set_connected false) >>
    update (set_listening false).

Definition pause (flag : bool) : Method unit :=
  update (set_paused flag) >> updatePlayer (PPaused flag).

Definition seek (pos : Z) : Method unit :=
  if pos <? 0 then throw (Err "Seek position cannot be negative.")
  else
    do p <- this;
    if negb (playing p) then ret tt
    else update (set_position pos) >> updatePlayer (PPosition pos).

(** [stop()] *)
Definition stop : Method unit :=
  do p <- this;
  if negb (playing p) then ret tt
  else
    updatePlayer (PTrack None) >>
    update (set_playing false) >>
    update (set_position 0).

Definition setVolume (v : Z) : Method unit :=
  if (v <? 0) || (200 <? v)
  then throw (Err "Volume must be between 0 and 200.")
  else update (set_volume v) >> updatePlayer (PVolume v).

(** [setLoop(mode)]: every [LoopMode] is in [validModes]. *)
Definition setLoop (mode : LoopMode) : Method unit :=
  update (set_loop mode) >> updatePlayer (PLoop mode).

Definition setTextChannel (channel : string) : Method unit :=
  updatePlayer (PTextChannel channel).

(** [setVoiceChannel(channel)] *)
Definition setVoiceChannel (channel : string) : Method unit :=
  if String.eqb channel ""
  then throw (TypeErr "Channel must be a non-empty string.")
  else
    do p <- this;
    if connected p && bool_decide (voiceChannel p = Some channel)
    then throw (ReferenceErr ("Player already connected to " +:+ channel +:+ "."))
    else
      update (set_voiceChannel (Some channel)) >>
      connect (guildId p) channel (Some (deaf p)) (Some (mute p)).

(** [disconnect()] *)
Definition disconnect : Method unit :=
  do p <- this;
  updatePlayer (PTrack None) >>
  update (set_connected false) >>
  send (guildId p) None None None >>
  effect (Debug "Player disconnected.").

Definition replay : Method unit := seek 0.

(** [skip()]: [stop()], then [play()] when [this.playing] holds. *)
Definition skip : Method unit :=
  stop >>
  do p <- this;
  if playing p then play else ret tt.

(** The per-session store, a [WeakMap]. Reading a method of
    [undefined] is a [TypeError]; so is [WeakMap.prototype.set] with a
    key that is not an object, while [get] with such a key finds
    nothing. *)
Definition set (key : Key) (value : JSValue) : Method unit :=
  do p <- this;
  match dataStore p with
  | None => throw (TypeErr "Cannot read properties of undefined (reading 'set')")
  | Some m =>
      match key with
      | KObject ref => update (set_dataStore (Some (<[ref := value]> m)))
      | KPrimitive _ => throw (TypeErr "Invalid value used as weak map key")
      end
  end.

Definition get (key : Key) : Method JSValue :=
  do p <- this;
  match dataStore p with
  | None => throw (TypeErr "Cannot read properties of undefined (reading 'get')")
  | Some m =>
      match key with
      | KObject ref => ret (default VUndefined (m !! ref))
      | KPrimitive _ => ret VUndefined
      end
  end.

Definition clearData : Method unit :=
  update (set_dataStore (Some ∅)).

(** [async cleanup()]: its body has no [await], so it runs to the end
    inside the caller's turn. *)
Definition cleanup : Method unit :=
  do p <- this;
  when (negb (playing p) && negb (paused p) && Queue.isEmpty (queue p)) destroy >>
  clearData.

(** *** Engine events *)

Record EventPayload := {
  code : option Z;
  type : string;
  reason : option string
}.

Definition trackStart (x : Item) : Method unit :=
  update (set_playing true) >>
  update (set_paused false) >>
  effect (Emit "trackStart" (Some x)).

Definition trackChange (x : Item) : Method unit :=
  update (set_playing true) >>
  update (set_paused false) >>
  effect (Emit "trackChange" (Some x)).

(** [payload.reason?.replace("_", "").toLowerCase()] *)
Definition normalise_reason (r : option string) : option string :=
  option_map (fun s => toLowerCase (remove_first "_"%char s)) r.

Definition is_load_failure_or_cleanup (r : option string) : bool :=
  match normalise_reason r with
  | Some s => String.eqb s "loadfailed" || String.eqb s "cleanup"
  | None => false
  end.

(** [async trackEnd(player, track, payload)], with [player] the session
    itself: [handleEvent] obtains it from [aqua.players] under the guild
    id by which [Node.#handlePlayerOp] found the session to deliver the
    event to. The only [await] is on the message deletion, whose outcome
    is ignored. The result [false] stands for the early [return]. *)
Definition trackEnd (x : Item) (payload : EventPayload) : Method unit :=
  do p <- this;
  when (shouldDeleteMessage p && nowPlayingMessage p)
       (effect DeleteMessage >> update (set_nowPlayingMessage false)) >>
  do continue <-
     (if is_load_failure_or_cleanup (reason payload) then
        do p <- this;
        if Queue.isEmpty (queue p)
        then effect (Emit "queueEnd" None) >> ret false
        else play >> ret true
      else ret true);
  if negb continue then ret tt
  else
    do p <- this;
    match loop p with
    | LoopTrack =>
        effect (Emit "trackRepeat" (Some x)) >>
        update (fun p => set_queue (Queue.unshift x (queue p)) p)
    | LoopQueue =>
        effect (Emit "queueRepeat" (Some x)) >>
        update (fun p => set_queue (Queue.push x (queue p)) p)
    | LoopNone => ret tt
    end >>
    do p <- this;
    when (Queue.isEmpty (queue p))
         (update (set_playing false) >>
          effect (Emit "queueEnd" None) >>
          cleanup) >>
    play.

Definition trackError (x : Item) : Method unit :=
  effect (Emit "trackError" (Some x)) >> stop.

Definition trackStuck (x : Item) : Method unit :=
  effect (Emit "trackStuck" (Some x)) >> stop.

(** [socketClosed(player, payload)] is invoked by [handleEvent] as
    [(player, track, payload)]: its [payload] parameter receives the
    track, which has no [code], so the handshake branch is not taken. *)
Definition socketClosed (x : Item) : Method unit :=
  effect (Emit "socketClosed" (Some x)) >>
  pause true >>
  effect (Debug "Player paused due to socket closure.").

Definition handleUnknownEvent : Method unit :=
  effect (Emit "nodeError" None).

(** [EVENT_HANDLERS] and [handleEvent]. [registered] is the outcome of
    [aqua.players.get(payload.guildId)]. [trackEnd] is [async]: when it
    throws, [handleEvent] returns normally and is left with a rejected
    promise that it neither awaits nor catches. *)
Definition handleEvent (registered : bool) (payload : EventPayload)
  : Method unit :=
  if negb registered then ret tt
  else
    do p <- this;
    let x := current p in
    let ty := type payload in
    if String.eqb ty "TrackStartEvent" then trackStart x
    else if String.eqb ty "TrackEndEvent"
         then catch (trackEnd x payload) (fun e => effect (Unhandled e))
    else if String.eqb ty "TrackExceptionEvent" then trackError x
    else if String.eqb ty "TrackStuckEvent" then trackStuck x
    else if String.eqb ty "TrackChangeEvent" then trackChange x
    else if String.eqb ty "WebSocketClosedEvent" then socketClosed x
    else handleUnknownEvent.

(** Running a method on a session with an empty effect log. *)
Definition run {A} (m : Method A) (p : t) : Result A * St := m (p, []).

(** What a caller or the engine can do to a session short of
    [clearData()] and of the two paths that reach it, [cleanup()] and
    the [trackEnd] handler. *)
Inductive Call :=
| CPlay
| CConnect (guild channel : string) (deaf_ mute_ : option bool)
| CSetVoiceChannel (channel : string)
| CDisconnect
| CDestroy
| CPause (flag : bool)
| CSeek (pos : Z)
| CStop
| CSetVolume (v : Z)
| CSetLoop (mode : LoopMode)
| CSetTextChannel (channel : string)
| CReplay
| CSkip
| CSet (key : Key) (value : JSValue)
| CGet (key : Key)
| CPlayerUpdate (state : option PlayerState)
| CTrackStart
| CTrackChange
| CTrackError
| CTrackStuck
| CSocketClosed
| CUnknownEvent.

Definition call (c : Call) : Method unit :=
  match c with
  | CPlay => play
  | CConnect guild channel d m => connect guild channel d m
  | CSetVoiceChannel channel => setVoiceChannel channel
  | CDisconnect => disconnect
  | CDestroy => destroy
  | CPause flag => pause flag
  | CSeek pos => seek pos
  | CStop => stop
  | CSetVolume v => setVolume v
  | CSetLoop mode => setLoop mode
  | CSetTextChannel channel => setTextChannel channel
  | CReplay => replay
  | CSkip => skip
  | CSet key value => set key value
  | CGet key => get key >> ret tt
  | CPlayerUpdate state => onPlayerUpdate state
  | CTrackStart => do p <- this; trackStart (current p)
  | CTrackChange => do p <- this; trackChange (current p)
  | CTrackError => do p <- this; trackError (current p)
  | CTrackStuck => do p <- this; trackStuck (current p)
  | CSocketClosed => do p <- this; socketClosed (current p)
  | CUnknownEvent => handleUnknownEvent
  end.

Definition exec_all (cs : list Call) (s : St) : St :=
  fold_left (fun s c => snd (call c s)) cs s.

(** The store is [undefined]. *)
Definition store_undefined (s : St) : Prop := dataStore (fst s) = None.

End Player.

(** ** Connection (the voice link) *)

Module Connection.

Record t := {
  player : option Player.t;
  voice : Voice;
  region : option string;
  selfDeaf : bool;
  selfMute : bool;
  voiceChannel : option string;
  lastUpdateTime : Z;
  updateThrottle : Z
}.

Definition St : Type := t * list Effect.
Definition Method (A : Type) : Type := M St A.

Definition this : Method t := fun s => (Ok (fst s), s).
Definition update (f : t -> t) : Method unit :=
  modify (fun s => (f (fst s), snd s)).
Definition effect (e : Effect) : Method unit :=
  modify (fun s => (fst s, snd s ++ [e])).

(** [constructor(player)] *)
Definition new (p : Player.t) : t :=
  {| player := Some p;
     voice := {| sessionId := None; endpoint := None; token := None |};
     region := None;
     selfDeaf := false;
     selfMute := false;
     voiceChannel := Player.voiceChannel p;
     lastUpdateTime := 0;
     updateThrottle := 1000 |}.

(** [this.player?.aqua.emit("debug", ...)] *)
Definition debug (msg : string) : Method unit :=
  do c <- this;
  match player c with
  | Some p =>
      effect (Debug ("[Player " +:+ Player.guildId p +:+ " - CONNECTION] " +:+ msg))
  | None => ret tt
  end.

(** [updateRegion(newRegion, endpoint, token)] *)
Definition updateRegion (newRegion endpoint_ : string) (token_ : option string)
  : Method unit :=
  do c <- this;
  let previousVoiceRegion := region c in
  update (fun c =>
    {| player := player c;
       voice := {| sessionId := sessionId (voice c);
                   endpoint := Some endpoint_;
                   token := token_ |};
       region := Some newRegion;
       selfDeaf := selfDeaf c;
       selfMute := selfMute c;
       voiceChannel := voiceChannel c;
       lastUpdateTime := lastUpdateTime c;
       updateThrottle := updateThrottle c |}) >>
  debug (if truthy previousVoiceRegion
         then "Changed Voice Region from " +:+ default "" previousVoiceRegion
              +:+ " to " +:+ newRegion
         else "Voice Server: " +:+ newRegion).

Definition set_lastUpdateTime (v : Z) (c : t) : t :=
  {| player := player c; voice := voice c; region := region c;
     selfDeaf := selfDeaf c; selfMute := selfMute c;
     voiceChannel := voiceChannel c; lastUpdateTime := v;
     updateThrottle := updateThrottle c |}.

(** [updatePlayerVoiceData()], with [now] the reading of [Date.now()]. *)
Definition updatePlayerVoiceData (now : Z) : Method unit :=
  do c <- this;
  if updateThrottle c <=? now - lastUpdateTime c then
    update (set_lastUpdateTime now) >>
    match player c with
    | Some p =>
        effect (UpdatePlayer (Player.guildId p) (PVoice (voice c) (Player.volume p)))
    | None => ret tt
    end
  else ret tt.

(** [endpoint.split('.')[0].replace(/[0-9]/g, "")] *)
Definition derive_region (endpoint_ : string) : string :=
  strip_digits (first_segment endpoint_).

(** [setServerUpdate({ endpoint, token })] *)
Definition setServerUpdate (endpoint_ token_ : option string) (now : Z)
  : Method unit :=
  match endpoint_ with
  | Some e =>
      if String.eqb e ""
      then throw (Err "Missing 'endpoint' property in VOICE_SERVER_UPDATE")
      else
        let newRegion := derive_region e in
        do c <- this;
        (if bool_decide (region c = Some newRegion) then ret tt
         else updateRegion newRegion e token_) >>
        updatePlayerVoiceData now
  | None => throw (Err "Missing 'endpoint' property in VOICE_SERVER_UPDATE")
  end.

(** The state after one throttled push at clock reading [now]. *)
Definition push (now : Z) (s : St) : St := snd (updatePlayerVoiceData now s).

(** Transmitted credential pushes in an effect log. *)
Definition is_push (e : Effect) : bool :=
  match e with
  | UpdatePlayer _ (PVoice _ _) => true
  | _ => false
  end.

Definition pushes (log : list Effect) : nat :=
  length (List.filter is_push log).

End Connection.

(** ** Rest (the request client) *)

Module Rest.

(** [url], [password] and [headers] are fixed at construction and only
    address the request; they are left out. *)
Record t := {
  sessionId : option string;
  version : string;
  calls : Z
}.

(** The [track] member of a patch. *)
Record TrackField := {
  encoded : option string;
  identifier : option string
}.

(** The members of a patch document that [updatePlayer] inspects; the
    remaining members travel in [others] untouched. *)
Record Body := {
  track : option TrackField;
  encodedTrack : option string;
  top_identifier : option string;
  others : list (string * JSValue)
}.

(** One call of undici's [request]. *)
Record Request := {
  method : string;
  path : string;
  body : option Body
}.

Definition St : Type := t * list Request.
Definition Method (A : Type) : Type := M St A.

Definition this : Method t := fun s => (Ok (fst s), s).

Definition setSessionId (sid : option string) (r : t) : t :=
  {| sessionId := sid; version := version r; calls := calls r |}.

Definition count_call (r : t) : t :=
  {| sessionId := sessionId r; version := version r; calls := calls r + 1 |}.

(** What the transport does with one request: [request] rejects; or a
    response arrives whose body does not decode; or the decoded document
    is returned. *)
Inductive Reply :=
| Failed (e : Error)
| Garbled (e : Error)
| Answer (data : JSValue).

(** [makeRequest(method, endpoint, body)] *)
Definition makeRequest (reply : Reply)
    (method_ path_ : string) (body_ : option Body) : Method JSValue :=
  modify (fun s => (fst s, snd s ++
            [{| method := method_; path := path_; body := body_ |}])) >>
  match reply with
  | Failed e => throw e
  | Garbled e => modify (fun s => (count_call (fst s), snd s)) >> throw e
  | Answer data => modify (fun s => (count_call (fst s), snd s)) >> ret data
  end.

(** [requestBody.track?.encoded && requestBody.track?.identifier] *)
Definition track_conflict (b : Body) : bool :=
  match track b with
  | Some tf => truthy (encoded tf) && truthy (identifier tf)
  | None => false
  end.

(** [requestBody.encodedTrack && requestBody.identifier] *)
Definition flat_conflict (b : Body) : bool :=
  truthy (encodedTrack b) && truthy (top_identifier b).

(** The rewriting of a patch for the v3 protocol. *)
Definition v3_body (b : Body) : Body :=
  match track b with
  | Some tf =>
      let value := if truthy (encoded tf) then encoded tf else identifier tf in
      if truthy (encoded tf)
      then {| track := None; encodedTrack := value;
              top_identifier := top_identifier b; others := others b |}
      else {| track := None; encodedTrack := encodedTrack b;
              top_identifier := value; others := others b |}
  | None => b
  end.

Definition show_session (o : option string) : string :=
  match o with Some s => s | None => "null" end.

Definition conflict_error : Error :=
  Err "Cannot provide both 'encoded' and 'identifier' for track".

(** [updatePlayer(options)] *)
Definition updatePlayer (reply : Reply)
    (guildId : string) (data : Body) : Method JSValue :=
  let requestBody := data in
  if track_conflict requestBody || flat_conflict requestBody
  then throw conflict_error
  else
    do r <- this;
    let requestBody :=
      if String.eqb (version r) "v3" then v3_body requestBody
      else requestBody in
    makeRequest reply "PATCH"
      ("/" +:+ version r +:+ "/sessions/" +:+ show_session (sessionId r)
       +:+ "/players/" +:+ guildId +:+ "?noReplace=false")
      (Some requestBody).

(** A member of a patch is present when it holds a non-empty string. *)
Definition present (o : option string) : Prop :=
  exists s, o = Some s /\ s <> "".

(** The words of the interface description: a patch in which both an
    encoded track token and an identifier are present, wherever each of
    them stands. *)
Definition token_and_identifier (b : Body) : Prop :=
  ((exists tf, track b = Some tf /\ present (encoded tf))
   \/ present (encodedTrack b)) /\
  ((exists tf, track b = Some tf /\ present (identifier tf))
   \/ present (top_identifier b)).

(** The two pairs the check of [updatePlayer] tests: token and
    identifier both present inside the [track] member, or both present
    as the flat pair of the v3 protocol. *)
Definition both_present (b : Body) : Prop :=
  (exists tf, track b = Some tf /\ present (encoded tf) /\ present (identifier tf))
  \/ (present (encodedTrack b) /\ present (top_identifier b)).

End Rest.

(** ** Node (the node connection) *)

Module Node.

(** The health snapshot. The memory block and the derived percentages
    are floating-point values that no code in scope reads; they are left
    out. [systemLoad] and [lavalinkLoad] are ratios. *)
Record Stats := {
  players : Z;
  playingPlayers : Z;
  uptime : Z;
  ping : Z;
  cores : Z;
  systemLoad : Q;
  lavalinkLoad : Q;
  sent : Z;
  nulled : Z;
  deficit : Z
}.

(** [#createStats()] *)
Definition createStats : Stats :=
  {| players := 0; playingPlayers := 0; uptime := 0; ping := 0;
     cores := 0; systemLoad := 0%Q; lavalinkLoad := 0%Q;
     sent := 0; nulled := 0; deficit := 0 |}.

(** A member of a JSON document that holds an object, holds [null],
    or is missing; a member that holds a number, a string or a boolean
    has no members of its own and reads like an empty object, which is
    what the default value of a missing one is. *)
Inductive Member (A : Type) :=
| Missing
| Null
| Obj (a : A).
Arguments Missing {A}.
Arguments Null {A}.
Arguments Obj {A} a.

Record MemoryPayload := {
  p_free : option Z;
  p_used : option Z;
  p_allocated : option Z;
  p_reservable : option Z
}.

Record CpuPayload := {
  p_cores : option Z;
  p_systemLoad : option Q;
  p_lavalinkLoad : option Q
}.

Record FramePayload := {
  p_sent : option Z;
  p_nulled : option Z;
  p_deficit : option Z
}.

(** A [stats] document: every number may be missing or [null], and so
    may each of the three blocks. A document that is not an object but
    truthy has no member at all. *)
Record StatsPayload := {
  p_players : option Z;
  p_playingPlayers : option Z;
  p_uptime : option Z;
  p_ping : option Z;
  p_memory : Member MemoryPayload;
  p_cpu : Member CpuPayload;
  p_frameStats : Member FramePayload
}.

(** The object [#updateStats] builds: [#updateMemoryStats],
    [#updateCpuStats] and [#updateFrameStats], in that order. The
    default [{}] of their parameter stands in for a missing block only;
    reading a member of [null] throws. *)
Definition parse_stats (payload : StatsPayload) : Result Stats :=
  match p_memory payload, p_cpu payload, p_frameStats payload with
  | Null, _, _ =>
      Throw (TypeErr "Cannot read properties of null (reading 'allocated')")
  | _, Null, _ =>
      Throw (TypeErr "Cannot read properties of null (reading 'cores')")
  | _, _, Null =>
      Throw (TypeErr "Cannot read properties of null (reading 'sent')")
  | _, cpu, frames =>
      let cpu := match cpu with
                 | Obj c => c
                 | _ => {| p_cores := None; p_systemLoad := None;
                           p_lavalinkLoad := None |}
                 end in
      let frames := match frames with
                    | Obj f => f
                    | _ => {| p_sent := None; p_nulled := None;
                              p_deficit := None |}
                    end in
      Ok {| players := default 0 (p_players payload);
            playingPlayers := default 0 (p_playingPlayers payload);
            uptime := default 0 (p_uptime payload);
            ping := default 0 (p_ping payload);
            cores := default 0 (p_cores cpu);
            systemLoad := default 0%Q (p_systemLoad cpu);
            lavalinkLoad := default 0%Q (p_lavalinkLoad cpu);
            sent := default 0 (p_sent frames);
            nulled := default 0 (p_nulled frames);
            deficit := default 0 (p_deficit frames) |}
  end.

(** The fields of [class Node]; [ws] says whether [#ws] holds a socket. *)
Record t := {
  name : string;
  host : string;
  port : Z;
  sessionId : option string;
  regions : list string;
  resumeKey : option string;
  resumeTimeout : Z;
  autoResume : bool;
  reconnectTimeout : Z;
  reconnectTries : Z;
  connected : bool;
  info : option JSValue;
  stats : Stats;
  ws : bool;
  statsCache : option Stats;
  lastStatsRequest : Z;
  reconnectAttempted : Z;
  rest : Rest.t
}.

Definition set_sessionId (v : option string) (n : t) : t :=
  {| name := name n; host := host n; port := port n; sessionId := v;
     regions := regions n; resumeKey := resumeKey n;
     resumeTimeout := resumeTimeout n; autoResume := autoResume n;
     reconnectTimeout := reconnectTimeout n;
     reconnectTries := reconnectTries n; connected := connected n;
     info := info n; stats := stats n; ws := ws n; statsCache := statsCache n;
     lastStatsRequest := lastStatsRequest n;
     reconnectAttempted := reconnectAttempted n; rest := rest n |}.

Definition set_connected (v : bool) (n : t) : t :=
  {| name := name n; host := host n; port := port n; sessionId := sessionId n;
     regions := regions n; resumeKey := resumeKey n;
     resumeTimeout := resumeTimeout n; autoResume := autoResume n;
     reconnectTimeout := reconnectTimeout n;
     reconnectTries := reconnectTries n; connected := v; info := info n;
     stats := stats n; ws := ws n; statsCache := statsCache n;
     lastStatsRequest := lastStatsRequest n;
     reconnectAttempted := reconnectAttempted n; rest := rest n |}.

Definition set_info (v : option JSValue) (n : t) : t :=
  {| name := name n; host := host n; port := port n; sessionId := sessionId n;
     regions := regions n; resumeKey := resumeKey n;
     resumeTimeout := resumeTimeout n; autoResume := autoResume n;
     reconnectTimeout := reconnectTimeout n;
     reconnectTries := reconnectTries n; connected := connected n; info := v;
     stats := stats n; ws := ws n; statsCache := statsCache n;
     lastStatsRequest := lastStatsRequest n;
     reconnectAttempted := reconnectAttempted n; rest := rest n |}.

Definition set_stats (v : Stats) (n : t) : t :=
  {| name := name n; host := host n; port := port n; sessionId := sessionId n;
     regions := regions n; resumeKey := resumeKey n;
     resumeTimeout := resumeTimeout n; autoResume := autoResume n;
     reconnectTimeout := reconnectTimeout n;
     reconnectTries := reconnectTries n; connected := connected n;
     info := info n; stats := v; ws := ws n; statsCache := statsCache n;
     lastStatsRequest := lastStatsRequest n;
     reconnectAttempted := reconnectAttempted n; rest := rest n |}.

Definition set_ws (v : bool) (n : t) : t :=
  {| name := name n; host := host n; port := port n; sessionId := sessionId n;
     regions := regions n; resumeKey := resumeKey n;
     resumeTimeout := resumeTimeout n; autoResume := autoResume n;
     reconnectTimeout := reconnectTimeout n;
     reconnectTries := reconnectTries n; connected := connected n;
     info := info n; stats := stats n; ws := v; statsCache := statsCache n;
     lastStatsRequest := lastStatsRequest n;
     reconnectAttempted := reconnectAttempted n; rest := rest n |}.

Definition set_statsCache (v : option Stats) (n : t) : t :=
  {| name := name n; host := host n; port := port n; sessionId := sessionId n;
     regions := regions n; resumeKey := resumeKey n;
     resumeTimeout := resumeTimeout n; autoResume := autoResume n;
     reconnectTimeout := reconnectTimeout n;
     reconnectTries := reconnectTries n; connected := connected n;
     info := info n; stats := stats n; ws := ws n; statsCache := v;
     lastStatsRequest := lastStatsRequest n;
     reconnectAttempted := reconnectAttempted n; rest := rest n |}.

Definition set_lastStatsRequest (v : Z) (n : t) : t :=
  {| name := name n; host := host n; port := port n; sessionId := sessionId n;
     regions := regions n; resumeKey := resumeKey n;
     resumeTimeout := resumeTimeout n; autoResume := autoResume n;
     reconnectTimeout := reconnectTimeout n;
     reconnectTries := reconnectTries n; connected := connected n;
     info := info n; stats := stats n; ws := ws n; statsCache := statsCache n;
     lastStatsRequest := v; reconnectAttempted := reconnectAttempted n;
     rest := rest n |}.

Definition set_reconnectAttempted (v : Z) (n : t) : t :=
  {| name := name n; host := host n; port := port n; sessionId := sessionId n;
     regions := regions n; resumeKey := resumeKey n;
     resumeTimeout := resumeTimeout n; autoResume := autoResume n;
     reconnectTimeout := reconnectTimeout n;
     reconnectTries := reconnectTries n; connected := connected n;
     info := info n; stats := stats n; ws := ws n; statsCache := statsCache n;
     lastStatsRequest := lastStatsRequest n; reconnectAttempted := v;
     rest := rest n |}.

Definition set_rest (v : Rest.t) (n : t) : t :=
  {| name := name n; host := host n; port := port n; sessionId := sessionId n;
     regions := regions n; resumeKey := resumeKey n;
     resumeTimeout := resumeTimeout n; autoResume := autoResume n;
     reconnectTimeout := reconnectTimeout n;
     reconnectTries := reconnectTries n; connected := connected n;
     info := info n; stats := stats n; ws := ws n; statsCache := statsCache n;
     lastStatsRequest := lastStatsRequest n;
     reconnectAttempted := reconnectAttempted n; rest := v |}.

Record NodeConfig := {
  c_name : option string;
  c_host : option string;
  c_port : option Z;
  c_sessionId : option string;
  c_regions : option (list string)
}.

Record NodeOptions := {
  o_resumeKey : option string;
  o_resumeTimeout : option Z;
  o_autoResume : option bool;
  o_reconnectTimeout : option Z;
  o_reconnectTries : option Z
}.

(** [constructor(aqua, nodes, options)] *)
Definition new (c : NodeConfig) (o : NodeOptions) : t :=
  let host_ := default "localhost" (c_host c) in
  let port_ := default 2333 (c_port c) in
  {| name := if truthy (c_name c) then default "" (c_name c) else host_;
     host := host_;
     port := port_;
     sessionId := c_sessionId c;
     regions := default [] (c_regions c);
     resumeKey := o_resumeKey o;
     resumeTimeout := default 60 (o_resumeTimeout o);
     autoResume := default false (o_autoResume o);
     reconnectTimeout := default 2000 (o_reconnectTimeout o);
     reconnectTries := default 3 (o_reconnectTries o);
     connected := false;
     info := None;
     stats := createStats;
     ws := false;
     statsCache := None;
     lastStatsRequest := 0;
     reconnectAttempted := 0;
     rest := {| Rest.sessionId := c_sessionId c;
                Rest.version := "v4";
                Rest.calls := 0 |} |}.

(** *** The registry as the node sees it *)

Inductive Event :=
| NodeDebug (msg : string)                       (* emit("debug", ...) *)
| NodeError (node : NodeRef) (msg : string)      (* emit("nodeError", node, error) *)
| NodeDisconnect (node : NodeRef) (code : Z)     (* emit("nodeDisconnect", ...) *)
| NodeReconnect (node : NodeRef)
| NodeConnect (node : NodeRef)
| NodeDestroy (node : NodeRef)
| AquaError (msg : string)                       (* emit("error", msg) *)
| FromPlayer (guildId : string) (e : Effect).    (* an effect of a session *)

(** The objects [Node] methods reach through [this] and [this.aqua]:
    node objects live in [heap] and are named by reference, so that the
    node a timer or a session holds is the node the pool holds;
    [nodeMap] and [players] are the two [Map]s in insertion order;
    [timers] are the pending [setTimeout] callbacks of [#reconnect],
    each with its delay; [bypassNodeFetchInfo] is
    [aqua.bypassChecks?.nodeFetchInfo]. *)
Record World := {
  heap : NodeRef -> t;
  nodeMap : list (string * NodeRef);
  sessions : list (string * Player.t);
  timers : list (Z * NodeRef);
  events : list Event;
  bypassNodeFetchInfo : bool
}.

Definition Method (A : Type) : Type := M World A.

Definition this (self : NodeRef) : Method t := fun w => (Ok (heap w self), w).

Definition update (self : NodeRef) (f : t -> t) : Method unit :=
  modify (fun w =>
    {| heap := fun r => if Pos.eqb r self then f (heap w r) else heap w r;
       nodeMap := nodeMap w; sessions := sessions w; timers := timers w;
       events := events w; bypassNodeFetchInfo := bypassNodeFetchInfo w |}).

Definition emit (e : Event) : Method unit :=
  modify (fun w =>
    {| heap := heap w; nodeMap := nodeMap w; sessions := sessions w;
       timers := timers w; events := events w ++ [e];
       bypassNodeFetchInfo := bypassNodeFetchInfo w |}).

Definition set_nodeMap (m : list (string * NodeRef)) : Method unit :=
  modify (fun w =>
    {| heap := heap w; nodeMap := m; sessions := sessions w;
       timers := timers w; events := events w;
       bypassNodeFetchInfo := bypassNodeFetchInfo w |}).

Definition set_sessions (ps : list (string * Player.t)) : Method unit :=
  modify (fun w =>
    {| heap := heap w; nodeMap := nodeMap w; sessions := ps;
       timers := timers w; events := events w;
       bypassNodeFetchInfo := bypassNodeFetchInfo w |}).

Definition set_timers (ts : list (Z * NodeRef)) : Method unit :=
  modify (fun w =>
    {| heap := heap w; nodeMap := nodeMap w; sessions := sessions w;
       timers := ts; events := events w;
       bypassNodeFetchInfo := bypassNodeFetchInfo w |}).

Definition emit_all (evs : list Event) : Method unit :=
  modify (fun w =>
    {| heap := heap w; nodeMap := nodeMap w; sessions := sessions w;
       timers := timers w; events := events w ++ evs;
       bypassNodeFetchInfo := bypassNodeFetchInfo w |}).

Definition when (b : bool) (m : Method unit) : Method unit :=
  if b then m else ret tt.

(** [Map.prototype.delete(key)] *)
Definition map_delete {V} (key : string) (m : list (string * V))
  : list (string * V) :=
  List.filter (fun kv => negb (String.eqb (fst kv) key)) m.

(** [Map.prototype.get(key)] *)
Fixpoint map_get {V} (key : string) (m : list (string * V)) : option V :=
  match m with
  | [] => None
  | (k, v) :: m' => if String.eqb k key then Some v else map_get key m'
  end.

(** [#cleanup()] *)
Definition cleanup (self : NodeRef) : Method unit :=
  do n <- this self;
  when (ws n) (update self (set_ws false)).

(** [player.node]: [class Player] declares no member of that name (the
    node given to its constructor is kept as [nodes]), so the read
    yields [undefined]. *)
Definition player_node (p : Player.t) : option NodeRef := None.

(** The loop of [destroy]: [player.destroy()] on every session whose
    [node] member is this node. [node_of] reads that member. *)
Fixpoint destroy_sessions (node_of : Player.t -> option NodeRef)
    (self : NodeRef) (ps : list (string * Player.t))
  : list (string * Player.t) * list Event :=
  match ps with
  | [] => ([], [])
  | (g, p) :: ps' =>
      let '(rest_, evs) := destroy_sessions node_of self ps' in
      if bool_decide (node_of p = Some self) then
        let '(_, (p', log)) := Player.run Player.destroy p in
        ((g, p') :: rest_, map (FromPlayer g) log ++ evs)
      else ((g, p) :: rest_, evs)
  end.

(** [destroy(clean)]. With [clean] set the code calls
    [this.aqua.nodes.delete], and [aqua.nodes] is the array of node
    configurations, which has no [delete]. *)
Definition destroy_with (node_of : Player.t -> option NodeRef)
    (clean : bool) (self : NodeRef) : Method unit :=
  if clean then
    emit (NodeDestroy self) >>
    throw (TypeErr "this.aqua.nodes.delete is not a function")
  else
    do n <- this self;
    (if connected n then
       do w <- state;
       let '(ps, evs) := destroy_sessions node_of self (sessions w) in
       set_sessions ps >> emit_all evs
     else ret tt) >>
    cleanup self >>
    update self (set_connected false) >>
    do w <- state;
    set_nodeMap (map_delete (name n) (nodeMap w)) >>
    emit (NodeDestroy self) >>
    update self (set_info None) >>
    update self (set_statsCache None) >>
    update self (set_stats createStats).

Definition destroy : bool -> NodeRef -> Method unit :=
  destroy_with player_node.

(** [#reconnect()] *)
Definition reconnect_with (node_of : Player.t -> option NodeRef)
    (self : NodeRef) : Method unit :=
  update self (fun n => set_reconnectAttempted (reconnectAttempted n + 1) n) >>
  do n <- this self;
  if reconnectTries n <=? reconnectAttempted n then
    emit (NodeError self ("Max reconnection attempts reached ("
                          +:+ pretty (reconnectTries n) +:+ ")")) >>
    destroy_with node_of false self
  else
    do w <- state;
    set_timers (timers w ++ [(reconnectTimeout n * reconnectAttempted n, self)]).

Definition reconnect : NodeRef -> Method unit := reconnect_with player_node.

(** [connect()]; [opens] says whether [new WebSocket(...)] returned a
    socket rather than throwing. *)
Definition connect (opens : bool) (self : NodeRef) : Method unit :=
  cleanup self >>
  if opens then
    update self (set_ws true) >>
    do n <- this self;
    emit (NodeDebug (name n +:+ ": Connecting..."))
  else
    do n <- this self;
    emit (NodeDebug (name n +:+ ": Connection failed")) >>
    reconnect self.

(** The callback [#reconnect] hands to [setTimeout], run when the
    oldest pending timer fires. *)
Definition fire_timer (opens : bool) : Method unit :=
  do w <- state;
  match timers w with
  | [] => ret tt
  | (_, self) :: ts =>
      set_timers ts >>
      emit (NodeReconnect self) >>
      connect opens self
  end.

(** [#onOpen()]; [reply] is the outcome of the request for [/v4/info].
    With [autoResume] set the code calls [this.resumePlayers], which
    [class Node] does not define: the [TypeError] lands in the same
    [catch]. The method is run in one piece; the source suspends at the
    [await]. *)
Definition onOpen (reply : Rest.Reply) (self : NodeRef) : Method unit :=
  update self (set_connected true) >>
  do n <- this self;
  emit (NodeDebug (name n +:+ ": Connected")) >>
  let count := update self (fun n => set_rest (Rest.count_call (rest n)) n) in
  let failed :=
    update self (set_info None) >>
    do w <- state;
    when (negb (bypassNodeFetchInfo w))
         (emit (AquaError "Failed to fetch node info")) in
  match reply with
  | Rest.Failed _ => failed
  | Rest.Garbled _ => count >> failed
  | Rest.Answer i =>
      count >>
      update self (set_info (Some i)) >>
      if autoResume n then failed else ret tt
  end.

(** [#updateStats(payload)]; [None] is a falsy document. *)
Definition updateStats (payload : option StatsPayload) (self : NodeRef)
  : Method unit :=
  match payload with
  | None => ret tt
  | Some payload =>
      match parse_stats payload with
      | Ok st => update self (set_stats st)
      | Throw e => throw e
      end
  end.

(** What the request for [/v4/stats] comes to: [request] rejects; or a
    response arrives whose body does not decode; or the decoded
    document is returned. *)
Inductive StatsReply :=
| StatsFailed (e : Error)
| StatsGarbled (e : Error)
| StatsAnswer (data : option StatsPayload).

(** [getStats()]; [now] is the reading of [Date.now()]. The reply is
    taken to arrive before anything else touches the node. *)
Definition getStats (now : Z) (reply : StatsReply) (self : NodeRef)
  : Method Stats :=
  do n <- this self;
  if now - lastStatsRequest n <? 60000 then
    ret (default (stats n) (statsCache n))
  else
    let count := update self (fun n => set_rest (Rest.count_call (rest n)) n) in
    catch
      (do data <- match reply with
                  | StatsFailed e => throw e
                  | StatsGarbled e => count >> throw e
                  | StatsAnswer data => count >> ret data
                  end;
       updateStats data self >>
       update self (set_lastStatsRequest now) >>
       update self (fun n => set_statsCache (Some (stats n)) n) >>
       do n <- this self;
       ret (stats n))
      (fun _ =>
         emit (NodeDebug "Stats fetch error") >>
         do n <- this self;
         ret (stats n)).

(** [#onError(error)] *)
Definition onError (msg : string) (self : NodeRef) : Method unit :=
  emit (NodeError self msg).

(** [#onClose(code, reason)] *)
Definition onClose_with (node_of : Player.t -> option NodeRef)
    (code : Z) (self : NodeRef) : Method unit :=
  update self (set_connected false) >>
  emit (NodeDisconnect self code) >>
  reconnect_with node_of self.

Definition onClose : Z -> NodeRef -> Method unit := onClose_with player_node.

(** [#handleReadyOp(payload)] *)
Definition handleReadyOp (sid : option string) (self : NodeRef)
  : Method unit :=
  do n <- this self;
  when (negb (bool_decide (sessionId n = sid)))
       (update self (set_sessionId sid) >>
        update self (fun n => set_rest (Rest.setSessionId sid (rest n)) n)) >>
  emit (NodeConnect self).

(** A decoded frame. [m_op] is [payload.op], [None] when the document
    has no such member or is not an object; a member that is not a
    string names no listener and behaves like a string that names none.
    The other fields are the members the handlers read: [m_stats]
    stands for the members [#updateStats] reads, [m_sessionId] is read
    by [#handleReadyOp], [m_guildId] by [#handlePlayerOp] and
    [handleEvent], [m_event] (that is [type], [reason] and [code]) by
    the handlers of engine events, and [m_state] by [onPlayerUpdate]. *)
Record Payload := {
  m_op : option string;
  m_guildId : option string;
  m_sessionId : option string;
  m_stats : StatsPayload;
  m_event : Player.EventPayload;
  m_state : option Player.PlayerState
}.

(** An inbound frame, as [JSON.parse] finds it. *)
Inductive Frame :=
| Malformed                     (* the parse throws *)
| Parsed (payload : Payload).

(** [Aqua.cleanupPlayer(player)], which the listener that
    [Aqua.createPlayer] registers for "destroy" calls, on the session
    found under [key]. The session is mutated in place and then removed
    under its own guild id. None of the steps throws, so the [catch] is
    not reached. *)
Definition cleanupPlayer (key : string) (p : Player.t) : Method unit :=
  let steps :=
    Player.clearData >>
    Player.update (Player.set_listening false) >>
    Player.destroy in
  let '(_, (p', log)) := Player.run steps p in
  do w <- state;
  set_sessions
    (map (fun kv => if String.eqb (fst kv) key
                    then (fst kv, p') else kv) (sessions w)) >>
  emit_all (map (FromPlayer key) log) >>
  do w <- state;
  set_sessions (map_delete (Player.guildId p') (sessions w)) >>
  emit (FromPlayer key (Emit "playerDestroy" None)).

(** Running a listener of the session registered under [key] and
    writing the session back. *)
Definition deliver (key : string) (p : Player.t)
    (handler : Player.Method unit) : Method unit :=
  do w <- state;
  let '(r, (p', log)) := Player.run handler p in
  set_sessions
    (map (fun kv => if String.eqb (fst kv) key
                    then (fst kv, p') else kv) (sessions w)) >>
  emit_all (map (FromPlayer key) log) >>
  match r with
  | Ok _ => ret tt
  | Throw e => throw e
  end.

(** [#handlePlayerOp(payload)]: [player?.emit(payload.op, payload)] runs
    the listeners the library has registered on the session for that
    name. The constructor registers the session's own two, for "event"
    and "playerUpdate"; they are gone once [listening] is cleared.
    [Aqua.createPlayer], the one place that registers a session, does so
    under the session's own guild id and adds a listener for "destroy"
    that lasts until it fires or all listeners are removed; in both
    cases the session leaves the map. Nothing listens for "error", and
    an emitter throws when "error" is emitted without a listener; the
    text of that error goes on with the rendered payload. The "event"
    listener looks the session up again under [payload.guildId] and
    finds it. *)
Definition handlePlayerOp (payload : Payload) : Method unit :=
  do w <- state;
  match m_guildId payload with
  | None => ret tt
  | Some key =>
      match map_get key (sessions w) with
      | None => ret tt
      | Some p =>
          let op := default "" (m_op payload) in
          if String.eqb op "event" then
            if Player.listening p
            then deliver key p (Player.handleEvent true (m_event payload))
            else ret tt
          else if String.eqb op "playerUpdate" then
            if Player.listening p
            then deliver key p (Player.onPlayerUpdate (m_state payload))
            else ret tt
          else if String.eqb op "destroy" then cleanupPlayer key p
          else if String.eqb op "error" then throw (Err "Unhandled error.")
          else ret tt
      end
  end.

(** [#onMessage(msg)]: whatever is thrown inside the [try], by the parse
    or by a handler, is caught and logged. *)
Definition onMessage (f : Frame) (self : NodeRef) : Method unit :=
  catch
    (match f with
     | Malformed => throw (SyntaxErr "Unexpected token in JSON")
     | Parsed payload =>
         if negb (truthy (m_op payload)) then ret tt
         else
           let op := default "" (m_op payload) in
           if String.eqb op "stats"
           then updateStats (Some (m_stats payload)) self
           else if String.eqb op "ready"
           then handleReadyOp (m_sessionId payload) self
           else handlePlayerOp payload
     end)
    (fun _ => emit (NodeDebug "Message parse error")).

(** The entry points of a node: the public methods and the listeners
    the socket and the timer call. *)
Inductive Call :=
| CConnect (opens : bool)
| CTimer (opens : bool)
| COpen (reply : Rest.Reply)
| CError (msg : string)
| CClose (code : Z)
| CMessage (f : Frame)
| CGetStats (now : Z) (reply : StatsReply)
| CDestroy (clean : bool).

Definition call (c : Call) (self : NodeRef) : Method unit :=
  match c with
  | CConnect opens => connect opens self
  | CTimer opens => fire_timer opens
  | COpen reply => onOpen reply self
  | CError msg => onError msg self
  | CClose code => onClose code self
  | CMessage f => onMessage f self
  | CGetStats now reply => getStats now reply self >> ret tt
  | CDestroy clean => destroy clean self
  end.

(** The world after a call; an exception ends the call, not the
    program. *)
Definition exec (c : Call) (self : NodeRef) (w : World) : World :=
  snd (call c self w).

Definition exec_all (cs : list Call) (self : NodeRef) (w : World) : World :=
  fold_left (fun w c => exec c self w) cs w.

(** A property [Q] of the reconnect-attempt counter of node [r]. *)
Definition counter_sat (Q : Z -> Prop) (r : NodeRef) (w : World) : Prop :=
  Q (reconnectAttempted (heap w r)).

Definition MAX_SAFE_INTEGER : Z := 2 ^ 53 - 1.

(** [get penalties()]. [load_penalty x] stands for the floating-point
    expression [Math.round(Math.pow(1.05, 100 * x) * 10 - 10)]. *)
Definition penalties (load_penalty : Q -> Z) (n : t) : Z :=
  if negb (connected n) then MAX_SAFE_INTEGER
  else
    let penalties := players (stats n) in
    let penalties :=
      if Qeq_bool (systemLoad (stats n)) 0 then penalties
      else penalties + load_penalty (systemLoad (stats n)) in
    let penalties := penalties + deficit (stats n) in
    let penalties := penalties + nulled (stats n) * 2 in
    penalties.

End Node.

(** ** Aqua (the registry and node pool) *)

Module Aqua.

(** [Array.prototype.sort] is stable; with a comparator that compares
    one integer key, its result is the stable arrangement by
    non-decreasing key, which insertion from the right computes. *)
Fixpoint insert_by {A} (key : A -> Z) (x : A) (l : list A) : list A :=
  match l with
  | [] => [x]
  | y :: l' => if key x <=? key y then x :: l else y :: insert_by key x l'
  end.

Definition sort_by {A} (key : A -> Z) (l : list A) : list A :=
  fold_right (insert_by key) [] l.

(** The order the comparator induces. *)
Definition key_le {A} (key : A -> Z) (x y : A) : Prop := key x <= key y.

(** [[...this.nodeMap.values()]] *)
Definition values (w : Node.World) : list NodeRef :=
  map snd (Node.nodeMap w).

Definition is_connected (w : Node.World) (r : NodeRef) : bool :=
  Node.connected (Node.heap w r).

(** [a.rest.calls], the key of the comparator. *)
Definition calls_of (w : Node.World) (r : NodeRef) : Z :=
  Rest.calls (Node.rest (Node.heap w r)).

(** [get leastUsedNodes()] *)
Definition leastUsedNodes (w : Node.World) : list NodeRef :=
  let activeNodes := List.filter (is_connected w) (values w) in
  match activeNodes with
  | [] => []
  | _ => sort_by (calls_of w) activeNodes
  end.

(** [fetchRegion(region)] when no region is given. *)
Definition fetchRegion_none (w : Node.World) : list NodeRef :=
  leastUsedNodes w.

End Aqua.

(** ** Queue and Player: accessors, history head and shuffle *)

Module QueueApi.

(** [get size()] *)
Definition size (q : Queue.t) : Z := Z.of_nat (length q).

(** [get first()] *)
Definition first (q : Queue.t) : Item :=
  match q with
  | [] => INull
  | x :: _ => x
  end.

(** [get last()] *)
Definition last (q : Queue.t) : Item := List.last q INull.

(** [add(track)] and [enqueue(track)] *)
Definition add (x : Item) (q : Queue.t) : Queue.t := Queue.push x q.
Definition enqueue (x : Item) (q : Queue.t) : Queue.t := add x q.

(** [dequeue()] *)
Definition dequeue (q : Queue.t) : option Item * Queue.t := Queue.shift q.

Definition peek (q : Queue.t) : Item := first q.

(** [[this[i], this[j]] = [this[j], this[i]]] for two indices of the
    array. *)
Definition swap (i j : nat) (q : Queue.t) : Queue.t :=
  match q !! i, q !! j with
  | Some a, Some b => <[j := a]> (<[i := b]> q)
  | _, _ => q
  end.

(** The loop of [shuffle()], from index [i] down to 1. [pick i] stands
    for the draw [Math.random()] makes at index [i];
    [Math.floor(Math.random() * (i + 1))] is an index of [0 .. i]. *)
Fixpoint shuffle_from (pick : nat -> nat) (i : nat) (q : Queue.t) : Queue.t :=
  match i with
  | O => q
  | S i' => shuffle_from pick i' (swap i (pick i mod (i + 1)) q)
  end.

(** [shuffle()], of [Queue] and, on [this.queue], of [Player]. *)
Definition shuffle (pick : nat -> nat) (q : Queue.t) : Queue.t :=
  shuffle_from pick (length q - 1) q.

(** Taking [n] elements off the front, one [dequeue()] at a time. *)
Fixpoint drain (n : nat) (q : Queue.t) : list Item * Queue.t :=
  match n with
  | O => ([], q)
  | S n' =>
      match dequeue q with
      | (Some x, q') => let '(xs, q'') := drain n' q' in (x :: xs, q'')
      | (None, q') => ([], q')
      end
  end.

End QueueApi.

Module PlayerApi.

(** [get previous()] *)
Definition previous (p : Player.t) : Item :=
  match Player.previousTracks p with
  | [] => INull
  | x :: _ => x
  end.

(** [Player.shuffle()] *)
Definition shuffle (pick : nat -> nat) : Player.Method unit :=
  Player.update
    (fun p => Player.set_queue (QueueApi.shuffle pick (Player.queue p)) p).

(** The history after [addToPreviousTrack] was called on each element
    of [xs] in turn. *)
Definition record_all (xs : list Item) (s : Player.St) : Player.St :=
  fold_left (fun s x => snd (Player.addToPreviousTrack x s)) xs s.

(** The event types [EVENT_HANDLERS] maps to a handler. *)
Definition known_events : list string :=
  ["TrackStartEvent"; "TrackEndEvent"; "TrackExceptionEvent";
   "TrackStuckEvent"; "TrackChangeEvent"; "WebSocketClosedEvent"].

(** Announcements of the end of the queue, and commands that leave
    the process (player patches and gateway frames), in an effect log. *)
Definition is_queueEnd (e : Effect) : bool :=
  match e with
  | Emit ev _ => String.eqb ev "queueEnd"
  | _ => false
  end.

Definition is_unhandled (e : Effect) : bool :=
  match e with
  | Unhandled _ => true
  | _ => false
  end.

Definition is_command (e : Effect) : bool :=
  match e with
  | UpdatePlayer _ _ | Send _ _ _ _ => true
  | _ => false
  end.

Definition count (f : Effect -> bool) (log : list Effect) : nat :=
  length (List.filter f log).

End PlayerApi.

(** ** Connection: the state update and the teardown *)

Module VoiceState.

(** The [data] of a VOICE_STATE_UPDATE. *)
Record StateUpdate := {
  channel_id : option string;
  session_id : option string;
  self_deaf : bool;
  self_mute : bool
}.

(** [cleanup()]: [player.destroy()] runs on the session the link
    holds; its effects join the log of the link. *)
Definition cleanup : Connection.Method unit :=
  do c <- Connection.this;
  match Connection.player c with
  | Some p =>
      Connection.effect (Emit "playerLeave" None) >>
      modify (fun s =>
        (fst s, snd s ++ snd (snd (Player.run Player.destroy p)))) >>
      Connection.effect (Emit "playerDestroy" None)
  | None => ret tt
  end >>
  Connection.update (fun c =>
    {| Connection.player := None;
       Connection.voice :=
         {| sessionId := None; endpoint := None; token := None |};
       Connection.region := None;
       Connection.selfDeaf := false;
       Connection.selfMute := false;
       Connection.voiceChannel := None;
       Connection.lastUpdateTime := Connection.lastUpdateTime c;
       Connection.updateThrottle := Connection.updateThrottle c |}).

(** [setStateUpdate(data)] *)
Definition setStateUpdate (data : StateUpdate) : Connection.Method unit :=
  if negb (truthy (channel_id data)) || negb (truthy (session_id data))
  then cleanup
  else
    do c <- Connection.this;
    (if bool_decide (Connection.voiceChannel c = channel_id data) then ret tt
     else
       match Connection.player c with
       | Some _ => Connection.effect (Emit "playerMove" None)
       | None => ret tt
       end) >>
    Connection.update (fun c =>
      {| Connection.player := Connection.player c;
         Connection.voice :=
           {| sessionId := session_id data;
              endpoint := endpoint (Connection.voice c);
              token := token (Connection.voice c) |};
         Connection.region := Connection.region c;
         Connection.selfDeaf := self_deaf data;
         Connection.selfMute := self_mute data;
         Connection.voiceChannel := channel_id data;
         Connection.lastUpdateTime := Connection.lastUpdateTime c;
         Connection.updateThrottle := Connection.updateThrottle c |}).

(** The signals a voice link receives. *)
Inductive Signal :=
| ServerUpdate (endpoint_ token_ : option string) (now : Z)
| StateChange (data : StateUpdate).

Definition signal (sg : Signal) : Connection.Method unit :=
  match sg with
  | ServerUpdate e t now => Connection.setServerUpdate e t now
  | StateChange data => setStateUpdate data
  end.

Definition signal_all (sgs : list Signal) (s : Connection.St) : Connection.St :=
  fold_left (fun s sg => snd (signal sg s)) sgs s.

(** The link holds no session. *)
Definition detached (s : Connection.St) : Prop :=
  Connection.player (fst s) = None.

End VoiceState.

(** ** Rest and Node: vocabulary of their properties *)

Module Accounting.

(** 1 when the transport produced a response, 0 when the request
    failed before one arrived. *)
Definition responded (reply : Rest.Reply) : Z :=
  match reply with
  | Rest.Failed _ => 0
  | Rest.Garbled _ | Rest.Answer _ => 1
  end.

(** The session id the request client addresses is the one the node
    holds. *)
Definition in_sync (n : Node.t) : Prop :=
  Rest.sessionId (Node.rest n) = Node.sessionId n.

Definition in_sync_at (r : NodeRef) (w : Node.World) : Prop :=
  in_sync (Node.heap w r).

Definition all_in_sync (w : Node.World) : Prop :=
  forall r, in_sync_at r w.

(** The pool is [m] and the pending retries are [ts]. *)
Definition pool_is (m : list (string * NodeRef)) (ts : list (Z * NodeRef))
    (w : Node.World) : Prop :=
  Node.nodeMap w = m /\ Node.timers w = ts.

End Accounting.

(** ** Aqua: looking up and destroying a session *)

Module Registry.

(** [get(guildId)] *)
Definition get (guildId : string) : Node.Method Player.t :=
  do w <- state;
  match Node.map_get guildId (Node.sessions w) with
  | Some p => ret p
  | None => throw (Err ("Player not found for guild ID: " +:+ guildId))
  end.


End Registry.

(** ** Sample data *)

Module Sample.

Definition trackA : Track :=
  {| track := Some "QAAAAa"; identifier := "a"; author := "x"; title := "A" |}.
Definition trackB : Track :=
  {| track := Some "QAAAAb"; identifier := "b"; author := "y"; title := "B" |}.
Definition trackC : Track :=
  {| track := Some "QAAAAc"; identifier := "c"; author := "z"; title := "C" |}.

Definition options : Player.PlayerOptions :=
  {| Player.opt_guildId := "guild";
     Player.opt_textChannel := None;
     Player.opt_voiceChannel := Some "voice";
     Player.opt_mute := None;
     Player.opt_deaf := None;
     Player.opt_defaultVolume := None;
     Player.opt_loop := None;
     Player.opt_shouldDeleteMessage := None |}.

(** A session on node 1 that went through [connect] and [setLoop mode],
    with [q] enqueued. *)
Definition idle (mode : LoopMode) (q : list Item) : Player.t :=
  Player.set_queue q
    (Player.set_loop mode
       (Player.set_connected true (Player.new 1%positive options))).

(** The same session while [x] is playing. *)
Definition playing (mode : LoopMode) (x : Item) (q : list Item) : Player.t :=
  Player.set_playing true (Player.set_current x (idle mode q)).

Definition trackEndEvent (r : string) : Player.EventPayload :=
  {| Player.code := None;
     Player.type := "TrackEndEvent";
     Player.reason := Some r |}.

(** The session after the engine reports the end of its current track. *)
Definition after_trackEnd (r : string) (p : Player.t) : Player.t :=
  fst (snd (Player.run (Player.handleEvent true (trackEndEvent r)) p)).

(** A pool of one node, "main", held under reference 1 and constructed
    with the default options ([reconnectTries] is 3). *)
Definition node1 : Node.t :=
  Node.new
    {| Node.c_name := Some "main";
       Node.c_host := Some "lava.example.net";
       Node.c_port := None;
       Node.c_sessionId := None;
       Node.c_regions := None |}
    {| Node.o_resumeKey := None;
       Node.o_resumeTimeout := None;
       Node.o_autoResume := None;
       Node.o_reconnectTimeout := None;
       Node.o_reconnectTries := None |}.

Definition world (ss : list (string * Player.t)) : Node.World :=
  {| Node.heap := fun _ => node1;
     Node.nodeMap := [("main", 1%positive)];
     Node.sessions := ss;
     Node.timers := [];
     Node.events := [];
     Node.bypassNodeFetchInfo := false |}.

(** A stats document with no member. *)
Definition no_stats : Node.StatsPayload :=
  {| Node.p_players := None; Node.p_playingPlayers := None;
     Node.p_uptime := None; Node.p_ping := None;
     Node.p_memory := Node.Missing; Node.p_cpu := Node.Missing;
     Node.p_frameStats := Node.Missing |}.

(** The frame [{ op, guildId }]. *)
Definition frame (op : string) (g : option string) : Node.Payload :=
  {| Node.m_op := Some op;
     Node.m_guildId := g;
     Node.m_sessionId := None;
     Node.m_stats := no_stats;
     Node.m_event := {| Player.code := None; Player.type := "";
                        Player.reason := None |};
     Node.m_state := None |}.

(** The frame [{ op: "ready", sessionId }]. *)
Definition ready (sid : option string) : Node.Frame :=
  Node.Parsed
    {| Node.m_op := Some "ready";
       Node.m_guildId := None;
       Node.m_sessionId := sid;
       Node.m_stats := no_stats;
       Node.m_event := {| Player.code := None; Player.type := "";
                          Player.reason := None |};
       Node.m_state := None |}.

(** The frame [{ op: "stats", ... }] with the members of [st]. *)
Definition stats_frame (st : Node.StatsPayload) : Node.Frame :=
  Node.Parsed
    {| Node.m_op := Some "stats";
       Node.m_guildId := None;
       Node.m_sessionId := None;
       Node.m_stats := st;
       Node.m_event := {| Player.code := None; Player.type := "";
                          Player.reason := None |};
       Node.m_state := None |}.

(** The frame [{ op: "event", guildId, type, reason }]. *)
Definition event_frame (g : string) (e : Player.EventPayload) : Node.Payload :=
  {| Node.m_op := Some "event";
     Node.m_guildId := Some g;
     Node.m_sessionId := None;
     Node.m_stats := no_stats;
     Node.m_event := e;
     Node.m_state := None |}.

(** One session, playing [A] on node 1 with [B] queued. *)
Definition bound_session : Player.t :=
  playing LoopNone (ITrack trackA) [ITrack trackB].

(** An open that fails: the socket reports the error, then closes. *)
Definition failed_open : list Node.Call :=
  [Node.CError "connect ECONNREFUSED"; Node.CClose 1006].

(** [connect()] and three failed opens, the retry timer firing after the
    first and the second. *)
Definition three_failed_opens : list Node.Call :=
  Node.CConnect true :: failed_open
  ++ Node.CTimer true :: failed_open
  ++ Node.CTimer true :: failed_open.

Definition is_fatal (e : Node.Event) : bool :=
  match e with
  | Node.NodeError _ msg =>
      String.eqb msg "Max reconnection attempts reached (3)"
  | _ => false
  end.

(** A pool of two connected nodes: the first has served no request and
    hosts five sessions, the second has served one request and hosts
    none. *)
Definition busy_node : Node.t :=
  Node.set_stats
    {| Node.players := 5; Node.playingPlayers := 5; Node.uptime := 0;
       Node.ping := 0; Node.cores := 4; Node.systemLoad := 0%Q;
       Node.lavalinkLoad := 0%Q; Node.sent := 0; Node.nulled := 0;
       Node.deficit := 0 |}
    (Node.set_connected true node1).

Definition free_node : Node.t :=
  Node.set_rest (Rest.count_call (Node.rest node1))
    (Node.set_connected true node1).

Definition two_nodes : Node.World :=
  {| Node.heap := fun r => if Pos.eqb r 1 then busy_node else free_node;
     Node.nodeMap := [("busy", 1%positive); ("free", 2%positive)];
     Node.sessions := [];
     Node.timers := [];
     Node.events := [];
     Node.bypassNodeFetchInfo := false |}.

(** A connected node whose last stats frame reports 2^53 players. *)
Definition crowded_node : Node.t :=
  Node.set_stats
    {| Node.players := 2 ^ 53; Node.playingPlayers := 0; Node.uptime := 0;
       Node.ping := 0; Node.cores := 4; Node.systemLoad := 0%Q;
       Node.lavalinkLoad := 0%Q; Node.sent := 0; Node.nulled := 0;
       Node.deficit := 0 |}
    (Node.set_connected true node1).

End Sample.

(** * Verified properties *)

(** ** Properties that every step of a method keeps *)

Section Preservation.

Context {S : Type} (P : S -> Prop).

Lemma preserves_ret {A} (a : A) : preserves P (ret a).
Proof. intros s Hs; exact Hs. Qed.

Lemma preserves_throw {A} (e : Error) : preserves P (@throw S A e).
Proof. intros s Hs; exact Hs. Qed.

Lemma preserves_state : preserves P (@state S).
Proof. intros s Hs; exact Hs. Qed.

Lemma preserves_modify (f : S -> S) :
  (forall s, P s -> P (f s)) -> preserves P (modify f).
Proof. intros Hf s Hs; cbn; auto. Qed.

Lemma preserves_bind {A B} (m : M S A) (k : A -> M S B) :
  preserves P m -> (forall a, preserves P (k a)) -> preserves P (bind m k).
Proof.
  intros Hm Hk s Hs. unfold bind.
  specialize (Hm s Hs). destruct (m s) as [[a|e] s']; cbn in *.
  - apply Hk, Hm.
  - exact Hm.
Qed.

Lemma preserves_catch {A} (m : M S A) (h : Error -> M S A) :
  preserves P m -> (forall e, preserves P (h e)) -> preserves P (catch m h).
Proof.
  intros Hm Hh s Hs. unfold catch.
  specialize (Hm s Hs). destruct (m s) as [[a|e] s']; cbn in *.
  - exact Hm.
  - apply Hh, Hm.
Qed.

End Preservation.

Create HintDb keep.
#[local] Hint Resolve preserves_ret preserves_throw preserves_state : keep.

(** One step of a preservation proof: split a sequence, or case on the
    test of a conditional. *)
Ltac keep_step :=
  first
    [ apply preserves_bind; [|intros ?]
    | apply preserves_catch; [|intros ?]
    | match goal with
      | |- preserves _ (if ?b then _ else _) => destruct b
      | |- preserves _ (match ?x with _ => _ end) => destruct x
      end ].

(** ** The playback state machine *)

Section Playback.

Import Player.

Lemma keep_this : preserves store_undefined this.
Proof. intros s Hs; exact Hs. Qed.

Lemma keep_effect e : preserves store_undefined (effect e).
Proof. intros s Hs; exact Hs. Qed.

Lemma keep_update f :
  (forall p, dataStore (f p) = dataStore p) ->
  preserves store_undefined (update f).
Proof. intros Hf [p log] Hs. unfold store_undefined in *; cbn in *. now rewrite Hf. Qed.

#[local] Hint Resolve keep_this keep_effect : keep.

Ltac keep_store :=
  repeat first
    [ solve [auto with keep]
    | solve [apply keep_update; intros; reflexivity]
    | keep_step ].

Lemma keep_updatePlayer d : preserves store_undefined (updatePlayer d).
Proof. unfold updatePlayer. keep_store. Qed.

Lemma keep_send g c d m : preserves store_undefined (send g c d m).
Proof. unfold send. keep_store. Qed.

#[local] Hint Resolve keep_updatePlayer keep_send : keep.

Lemma keep_play : preserves store_undefined play.
Proof. unfold play, Queue.shift. keep_store. Qed.

Lemma keep_stop : preserves store_undefined stop.
Proof. unfold stop. keep_store. Qed.

Lemma keep_pause b : preserves store_undefined (pause b).
Proof. unfold pause. keep_store. Qed.

Lemma keep_seek z : preserves store_undefined (seek z).
Proof. unfold seek. keep_store. Qed.

Lemma keep_destroy : preserves store_undefined destroy.
Proof. unfold destroy. keep_store. Qed.

#[local] Hint Resolve keep_play keep_stop keep_pause keep_seek keep_destroy
  : keep.

Lemma keep_set k v : preserves store_undefined (set k v).
Proof.
  intros [p log] Hs. unfold store_undefined, set, bind, this in *; cbn in *.
  rewrite Hs; cbn. exact Hs.
Qed.

Lemma keep_get k : preserves store_undefined (get k).
Proof.
  intros [p log] Hs. unfold store_undefined, get, bind, this in *; cbn in *.
  rewrite Hs; cbn. exact Hs.
Qed.

#[local] Hint Resolve keep_set keep_get : keep.

Lemma keep_call c : preserves store_undefined (call c).
Proof.
  destruct c; cbn [call];
    unfold setVoiceChannel, disconnect, connect, setVolume, setLoop,
      setTextChannel, replay, skip,
      onPlayerUpdate, trackStart, trackChange, trackError, trackStuck,
      socketClosed, handleUnknownEvent;
    keep_store.
Qed.

Lemma keep_exec_all cs s : store_undefined s -> store_undefined (exec_all cs s).
Proof.
  revert s. induction cs as [|c cs IH]; intros s Hs; cbn; [exact Hs|].
  apply IH, keep_call, Hs.
Qed.

Lemma skip_is_stop (s : St) : skip s = stop s.
Proof.
  destruct s as [p log]. unfold skip, stop, bind, this; cbn.
  destruct (playing p) eqn:Hp; cbn; [reflexivity|].
  rewrite Hp. reflexivity.
Qed.

(** C7, as stated, fails: on a playing session with [B] queued, [skip()]
    does not do what [stop()] followed by [play()] does; [B] stays
    queued and [A] stays current. *)
Lemma skip_does_not_start_next_track :
  let p := Sample.playing LoopNone (ITrack Sample.trackA) [ITrack Sample.trackB] in
  run skip p <> run (stop >> play) p /\
  queue (fst (snd (run skip p))) = [ITrack Sample.trackB] /\
  current (fst (snd (run skip p))) = ITrack Sample.trackA.
Proof.
  cbv zeta. split; [|split; vm_compute; reflexivity].
  intros H. vm_compute in H. discriminate H.
Qed.

(** C7, amended: [skip()] performs [stop()] and would invoke [play()]
    only if the session were still marked playing; [stop()] leaves the
    flag cleared, so [skip()] is [stop()]: it never invokes [play()],
    and queue and current track are as they were. *)
Theorem skip_never_plays (s : St) :
  skip s = stop s /\
  playing (fst (snd (skip s))) = false /\
  queue (fst (snd (skip s))) = queue (fst s) /\
  current (fst (snd (skip s))) = current (fst s).
Proof.
  split; [apply skip_is_stop|]. rewrite skip_is_stop.
  destruct s as [p log]. unfold stop, bind, this; cbn.
  destruct (playing p) eqn:Hp; cbn; auto.
Qed.

(** C10, as stated, fails: after [clearData()], [set] followed by [get]
    on the same key does not succeed when the key is a string; [set]
    raises a [TypeError]. *)
Lemma string_key_is_refused_after_clearData :
  let p := new 1%positive Sample.options in
  let key := KPrimitive (VStr "requester") in
  fst (run (clearData >> set key (VNum 7) >> get key) p) <> Ok (VNum 7) /\
  fst (run (clearData >> set key (VNum 7)) p)
    = Throw (TypeErr "Invalid value used as weak map key").
Proof.
  cbv zeta. split; [|vm_compute; reflexivity].
  intros H. vm_compute in H. discriminate H.
Qed.

(** C10, amended: on a freshly constructed session, and after any calls
    that do not reach [clearData()], [set(key, value)] and [get(key)]
    raise a [TypeError] for every key, the store being [undefined];
    once [clearData()] has run, [set] followed by [get] on the same key
    returns the value when the key is an object, while for a key that is
    not an object [set] raises a [TypeError] and [get] returns
    [undefined]. *)
Theorem store_needs_clearData_and_an_object_key
    (node : NodeRef) (o : PlayerOptions) (cs : list Call)
    (key : Key) (value : JSValue) (s0 : St) :
  let s := exec_all cs (new node o, []) in
  fst (set key value s)
    = Throw (TypeErr "Cannot read properties of undefined (reading 'set')") /\
  fst (get key s)
    = Throw (TypeErr "Cannot read properties of undefined (reading 'get')") /\
  (forall ref,
     fst ((clearData >> set (KObject ref) value >> get (KObject ref)) s0)
       = Ok value) /\
  (forall v,
     fst ((clearData >> set (KPrimitive v) value) s0)
       = Throw (TypeErr "Invalid value used as weak map key") /\
     fst ((clearData >> get (KPrimitive v)) s0) = Ok VUndefined).
Proof.
  intros s.
  assert (Hs : store_undefined s) by (apply keep_exec_all; reflexivity).
  destruct s as [p log]. unfold store_undefined in Hs; cbn in Hs.
  unfold set, get, clearData, bind, this, update, modify; cbn.
  rewrite Hs. repeat apply conj; try reflexivity.
  - intros ref. now rewrite lookup_insert_eq.
  - intros v. split; reflexivity.
Qed.

(** C5, as stated, fails: after [play()] and the [trackEnd] event with
    reason "finished" under loop mode none, the history is empty, not
    [A]. *)
Lemma normal_playback_records_no_history :
  let p0 := Sample.idle LoopNone [ITrack Sample.trackA; ITrack Sample.trackB] in
  let p1 := fst (snd (run play p0)) in
  let p2 := Sample.after_trackEnd "finished" p1 in
  ~ (current p1 = ITrack Sample.trackA /\ playing p1 = true /\
     queue p1 = [ITrack Sample.trackB] /\
     previousTracks p2 = [ITrack Sample.trackA] /\
     current p2 = ITrack Sample.trackB /\ queue p2 = []).
Proof. cbv zeta. intros (_ & _ & _ & H & _). vm_compute in H. discriminate H. Qed.

(** C5, amended: with queue [A, B], [play()] makes [A] current, marks
    the session playing and leaves [B] queued; the [trackEnd] event
    with a reason other than load failure or cleanup, under loop mode
    none, then invokes [play()], after which [B] is current and the
    queue is empty; the history buffer is as it was. *)
Theorem normal_playback_sequence
    (p : t) (a b : Track) (payload : EventPayload) :
  connected p = true ->
  loop p = LoopNone ->
  queue p = [ITrack a; ITrack b] ->
  truthy (track a) = true ->
  truthy (track b) = true ->
  type payload = "TrackEndEvent" ->
  is_load_failure_or_cleanup (reason payload) = false ->
  let s1 := snd (run play p) in
  let s2 := snd (handleEvent true payload s1) in
  (current (fst s1) = ITrack a /\ playing (fst s1) = true /\
   queue (fst s1) = [ITrack b]) /\
  (current (fst s2) = ITrack b /\ playing (fst s2) = true /\
   queue (fst s2) = [] /\ previousTracks (fst s2) = previousTracks p).
Proof.
  destruct p, payload as [c ty r];
    cbn [connected loop queue type reason previousTracks].
  intros -> -> -> Ha Hb -> Hr.
  unfold run, play, handleEvent, catch, trackEnd, bind, this, when;
    cbn.
  rewrite Ha; cbn. rewrite Hr; cbn.
  destruct (_ && _); cbn; rewrite Hb; cbn; auto.
Qed.

Lemma normal_playback_sequence_witness :
  let p := Sample.idle LoopNone [ITrack Sample.trackA; ITrack Sample.trackB] in
  let s1 := snd (run play p) in
  let s2 := snd (handleEvent true (Sample.trackEndEvent "finished") s1) in
  (current (fst s1) = ITrack Sample.trackA /\ playing (fst s1) = true /\
   queue (fst s1) = [ITrack Sample.trackB]) /\
  (current (fst s2) = ITrack Sample.trackB /\ playing (fst s2) = true /\
   queue (fst s2) = [] /\ previousTracks (fst s2) = previousTracks p).
Proof.
  apply (normal_playback_sequence
           (Sample.idle LoopNone [ITrack Sample.trackA; ITrack Sample.trackB])
           Sample.trackA Sample.trackB (Sample.trackEndEvent "finished"));
    vm_compute; reflexivity.
Defined.

(** C1, on the code: a [trackEnd] event with reason "loadFailed" (or
    "LOAD_FAILED") reaches a session whose finished track is [A] and
    whose queue is [B, C]. The handler starts [B], then goes on into
    the loop switch and the final [play()]: under loop mode none [C]
    ends up current; under track [A] is put back at the head and
    started again; under queue [A] is appended and [C] started. In no
    mode is [B] the current track afterwards. *)
Theorem load_failure_runs_loop_policy_and_plays_twice :
  let start mode :=
    Sample.playing mode (ITrack Sample.trackA)
      [ITrack Sample.trackB; ITrack Sample.trackC] in
  let finish mode := Sample.after_trackEnd "loadFailed" (start mode) in
  (current (finish LoopNone) = ITrack Sample.trackC /\
   queue (finish LoopNone) = []) /\
  (current (finish LoopTrack) = ITrack Sample.trackA /\
   queue (finish LoopTrack) = [ITrack Sample.trackC]) /\
  (current (finish LoopQueue) = ITrack Sample.trackC /\
   queue (finish LoopQueue) = [ITrack Sample.trackA]) /\
  Sample.after_trackEnd "LOAD_FAILED" (start LoopTrack) = finish LoopTrack.
Proof. vm_compute. repeat apply conj; reflexivity. Qed.

End Playback.

(** ** The voice link *)

Section VoiceLink.

Import Connection.

Lemma push_open (c : t) (p : Player.t) (log : list Effect) (now : Z) :
  player c = Some p ->
  updateThrottle c <= now - lastUpdateTime c ->
  push now (c, log)
  = (set_lastUpdateTime now c,
     log ++ [UpdatePlayer (Player.guildId p) (PVoice (voice c) (Player.volume p))]).
Proof.
  intros Hp Ht. unfold push, updatePlayerVoiceData, bind, this; cbn.
  rewrite (proj2 (Z.leb_le _ _) Ht); cbn. rewrite Hp. reflexivity.
Qed.

Lemma push_closed (c : t) (log : list Effect) (now : Z) :
  now - lastUpdateTime c < updateThrottle c ->
  push now (c, log) = (c, log).
Proof.
  intros Ht. unfold push, updatePlayerVoiceData, bind, this; cbn.
  rewrite (proj2 (Z.leb_gt _ _) Ht). reflexivity.
Qed.

Lemma pushes_snoc (log : list Effect) (e : Effect) :
  pushes (log ++ [e]) = (pushes log + (if is_push e then 1 else 0))%nat.
Proof.
  unfold pushes. rewrite List.filter_app, length_app; cbn.
  destruct (is_push e); reflexivity.
Qed.

(** C6: a push is transmitted only when at least 1000 time units have
    passed since the last transmitted one, whose time the link records;
    inside the window it changes neither the link nor the log (nothing
    is queued). Hence, starting outside the window, two pushes 10 units
    apart transmit one update, and two pushes 1500 units apart transmit
    two. *)
Theorem voice_push_throttle
    (c : t) (p : Player.t) (log : list Effect) (t0 : Z) :
  player c = Some p ->
  updateThrottle c = 1000 ->
  1000 <= t0 - lastUpdateTime c ->
  (forall now,
     pushes (snd (push now (c, log)))
     = (pushes log + (if (1000 <=? now - lastUpdateTime c)%Z then 1 else 0))%nat) /\
  (forall now,
     now - lastUpdateTime c < 1000 -> push now (c, log) = (c, log)) /\
  lastUpdateTime (fst (push t0 (c, log))) = t0 /\
  pushes (snd (push (t0 + 10) (push t0 (c, log)))) = (pushes log + 1)%nat /\
  pushes (snd (push (t0 + 1500) (push t0 (c, log)))) = (pushes log + 2)%nat.
Proof.
  intros Hp Hthr Ht0.
  assert (Hfirst : push t0 (c, log)
    = (set_lastUpdateTime t0 c,
       log ++ [UpdatePlayer (Player.guildId p)
                 (PVoice (voice c) (Player.volume p))])).
  { apply push_open; [exact Hp | lia]. }
  split; [|split; [|split; [|split]]].
  - intros now. destruct (1000 <=? now - lastUpdateTime c) eqn:E.
    + apply Z.leb_le in E.
      rewrite (push_open c p log now Hp) by lia. cbn [snd].
      now rewrite pushes_snoc.
    + apply Z.leb_gt in E. rewrite push_closed by lia. cbn [snd]. lia.
  - intros now Hnow. apply push_closed. lia.
  - rewrite Hfirst. reflexivity.
  - rewrite Hfirst, push_closed by (cbn; lia). cbn [snd].
    now rewrite pushes_snoc.
  - rewrite Hfirst.
    rewrite (push_open _ p) by (cbn; auto; lia). cbn [snd].
    rewrite !pushes_snoc. cbn. lia.
Qed.

Lemma voice_push_throttle_witness :
  let c := new (Sample.idle LoopNone []) in
  pushes (snd (push 1700000000010 (push 1700000000000 (c, [])))) = 1%nat /\
  pushes (snd (push 1700000001500 (push 1700000000000 (c, [])))) = 2%nat.
Proof.
  pose proof (voice_push_throttle (new (Sample.idle LoopNone []))
                (Sample.idle LoopNone []) [] 1700000000000
                eq_refl eq_refl ltac:(vm_compute; discriminate)) as H.
  exact (proj2 (proj2 (proj2 H))).
Defined.





End VoiceLink.

(** ** The request client *)

Section Requests.

Import Rest.

Lemma truthy_present (o : option string) : truthy o = true <-> present o.
Proof.
  unfold present. destruct o as [s|]; cbn.
  - rewrite negb_true_iff, String.eqb_neq. split.
    + intros H; exists s; auto.
    + intros (s' & [= <-] & H); exact H.
  - split; [discriminate|]. intros (s & H & _); discriminate H.
Qed.

Lemma conflict_both_present (b : Body) :
  track_conflict b || flat_conflict b = true <-> both_present b.
Proof.
  unfold both_present, track_conflict, flat_conflict.
  rewrite orb_true_iff. split.
  - intros [H|H].
    + left. destruct (track b) as [tf|]; [|discriminate].
      apply andb_true_iff in H as [H1 H2].
      exists tf. rewrite <- !truthy_present. auto.
    + right. apply andb_true_iff in H as [H1 H2].
      rewrite <- !truthy_present. auto.
  - intros [(tf & -> & H1 & H2)|[H1 H2]]; [left|right];
      apply andb_true_iff; rewrite !truthy_present; auto.
Qed.

(** C8, as stated, fails: a patch that carries the token inside its
    [track] member and the identifier at the top level has both fields
    present, yet it is not rejected: the request goes out, and under the
    v3 protocol its body holds the token and the identifier side by
    side. *)
Lemma mixed_patch_is_not_rejected :
  let b := {| track := Some {| encoded := Some "QAAAAa"; identifier := None |};
              encodedTrack := None; top_identifier := Some "a";
              others := [] |} in
  let r := {| sessionId := Some "s"; version := "v3"; calls := 0 |} in
  token_and_identifier b /\
  updatePlayer (Answer VUndefined) "guild" b (r, [])
  = (Ok VUndefined,
     (count_call r,
      [{| method := "PATCH";
          path := "/v3/sessions/s/players/guild?noReplace=false";
          body := Some {| track := None; encodedTrack := Some "QAAAAa";
                          top_identifier := Some "a"; others := [] |} |}])).
Proof.
  cbv zeta. split; [|vm_compute; reflexivity].
  split; [left; eexists; split; [reflexivity|]|right];
    eexists; (split; [reflexivity|discriminate]).
Qed.

(** C8, amended: a patch is rejected with the caller error, while the
    client is as it was (no request issued, none counted), when token
    and identifier are present at the same level: both inside the
    [track] member, or both as the flat pair. Such a patch has both
    fields present. Every other patch passes the check, also one that
    holds the token at one level and the identifier at the other:
    exactly one PATCH request goes out. *)
Theorem conflicting_patch_rejected_before_request
    (reply : Reply) (r : t) (sent : list Request) (guildId : string) (b : Body) :
  (both_present b ->
   updatePlayer reply guildId b (r, sent) = (Throw conflict_error, (r, sent))) /\
  (~ both_present b ->
   exists req,
     snd (snd (updatePlayer reply guildId b (r, sent))) = sent ++ [req] /\
     method req = "PATCH") /\
  (both_present b -> token_and_identifier b).
Proof.
  unfold updatePlayer. repeat apply conj; intros H.
  - apply conflict_both_present in H. rewrite H. reflexivity.
  - destruct (track_conflict b || flat_conflict b) eqn:E.
    + apply conflict_both_present in E. contradiction.
    + unfold bind, this, makeRequest, modify; cbn.
      destruct reply; eexists; (split; [reflexivity|reflexivity]).
  - destruct H as [(tf & Ht & H1 & H2)|[H1 H2]].
    + split; left; exists tf; auto.
    + split; right; assumption.
Qed.

Lemma conflicting_patch_rejected_before_request_witness :
  let both := {| track := Some {| encoded := Some "QAAAAa";
                                  identifier := Some "a" |};
                 encodedTrack := None; top_identifier := None;
                 others := [] |} in
  let one := {| track := Some {| encoded := Some "QAAAAa";
                                 identifier := None |};
                encodedTrack := None; top_identifier := None;
                others := [] |} in
  let r := {| sessionId := Some "s"; version := "v4"; calls := 0 |} in
  updatePlayer (Answer VUndefined) "guild" both (r, [])
  = (Throw conflict_error, (r, [])) /\
  exists req,
    snd (snd (updatePlayer (Answer VUndefined) "guild" one (r, []))) = [req] /\
    method req = "PATCH".
Proof.
  cbv zeta. split.
  - apply conflicting_patch_rejected_before_request.
    left. eexists. split; [reflexivity|].
    split; eexists; (split; [reflexivity|discriminate]).
  - apply (proj1 (proj2 (conflicting_patch_rejected_before_request _ _ [] _ _))).
    intros [(tf & [= <-] & _ & (s & H & _))|[(s & H & _) _]]; discriminate H.
Defined.


End Requests.

(** ** The node connection *)

Section NodeConnection.

Import Node.

(** A property of one node's reconnect-attempt counter. *)
Section Counter.

Variable Q : Z -> Prop.
Variable r : NodeRef.

Lemma keep_node_this self : preserves (counter_sat Q r) (this self).
Proof. intros w Hw; exact Hw. Qed.

Lemma keep_node_update self f :
  (forall n, reconnectAttempted (f n) = reconnectAttempted n) ->
  preserves (counter_sat Q r) (update self f).
Proof.
  intros Hf w Hw. unfold counter_sat in *; cbn.
  destruct (Pos.eqb r self); [rewrite Hf|]; exact Hw.
Qed.

Lemma keep_node_emit e : preserves (counter_sat Q r) (emit e).
Proof. intros w Hw; exact Hw. Qed.

Lemma keep_node_emit_all evs : preserves (counter_sat Q r) (emit_all evs).
Proof. intros w Hw; exact Hw. Qed.

Lemma keep_node_set_nodeMap m : preserves (counter_sat Q r) (set_nodeMap m).
Proof. intros w Hw; exact Hw. Qed.

Lemma keep_node_set_sessions ps : preserves (counter_sat Q r) (set_sessions ps).
Proof. intros w Hw; exact Hw. Qed.

Lemma keep_node_set_timers ts : preserves (counter_sat Q r) (set_timers ts).
Proof. intros w Hw; exact Hw. Qed.

Hint Resolve keep_node_this keep_node_emit keep_node_emit_all
  keep_node_set_nodeMap keep_node_set_sessions keep_node_set_timers : keep.

Ltac keep_counter :=
  repeat first
    [ solve [auto with keep]
    | solve [apply keep_node_update; intros; reflexivity]
    | keep_step ].

Lemma keep_node_cleanup self : preserves (counter_sat Q r) (cleanup self).
Proof. unfold cleanup, when. keep_counter. Qed.

Hint Resolve keep_node_cleanup : keep.

Lemma keep_node_destroy node_of clean self :
  preserves (counter_sat Q r) (destroy_with node_of clean self).
Proof. unfold destroy_with. keep_counter. Qed.

Lemma keep_node_onOpen reply self : preserves (counter_sat Q r) (onOpen reply self).
Proof. unfold onOpen, when. keep_counter. Qed.

Lemma keep_node_updateStats payload self :
  preserves (counter_sat Q r) (updateStats payload self).
Proof. unfold updateStats. keep_counter. Qed.

Lemma keep_node_handleReadyOp sid self :
  preserves (counter_sat Q r) (handleReadyOp sid self).
Proof. unfold handleReadyOp, when. keep_counter. Qed.

Lemma keep_node_handlePlayerOp payload :
  preserves (counter_sat Q r) (handlePlayerOp payload).
Proof. unfold handlePlayerOp, cleanupPlayer, deliver. keep_counter. Qed.

Hint Resolve keep_node_destroy keep_node_onOpen keep_node_updateStats
  keep_node_handleReadyOp keep_node_handlePlayerOp : keep.

Lemma keep_node_onMessage f self : preserves (counter_sat Q r) (onMessage f self).
Proof. unfold onMessage. keep_counter. Qed.

Lemma keep_node_getStats now reply self :
  preserves (counter_sat Q r) (getStats now reply self).
Proof. unfold getStats. keep_counter. Qed.

Hint Resolve keep_node_onMessage keep_node_getStats : keep.

(** The methods that reach [#reconnect] keep what an increment keeps. *)
Hypothesis Q_succ : forall x, Q x -> Q (x + 1).

Lemma keep_node_increment self :
  preserves (counter_sat Q r)
    (update self (fun n => set_reconnectAttempted (reconnectAttempted n + 1) n)).
Proof.
  intros w Hw. unfold counter_sat in *; cbn.
  destruct (Pos.eqb r self); cbn; auto.
Qed.

Hint Resolve keep_node_increment : keep.

Lemma keep_node_reconnect node_of self :
  preserves (counter_sat Q r) (reconnect_with node_of self).
Proof. unfold reconnect_with. keep_counter. Qed.

Hint Resolve keep_node_reconnect : keep.

Lemma keep_node_connect opens self : preserves (counter_sat Q r) (connect opens self).
Proof. unfold connect, reconnect. keep_counter. Qed.

Hint Resolve keep_node_connect : keep.

Lemma keep_node_call c self : preserves (counter_sat Q r) (call c self).
Proof.
  destruct c; cbn [call]; unfold fire_timer, onError, onClose, onClose_with, destroy;
    keep_counter.
Qed.

End Counter.

(** C3, as stated, fails: after one failed open and a retry, a
    successful open leaves the counter at 1. *)
Lemma open_after_failure_does_not_reset_counter :
  let w := exec_all [CConnect true; CClose 1006; CTimer true] 1%positive
             (Sample.world []) in
  reconnectAttempted
    (heap (exec (COpen (Rest.Answer VUndefined)) 1%positive w) 1%positive)
  <> 0.
Proof. vm_compute. discriminate. Qed.

Lemma reconnect_increments (node_of : Player.t -> option NodeRef)
    (self : NodeRef) (w : World) :
  reconnectAttempted (heap (snd (reconnect_with node_of self w)) self)
  = reconnectAttempted (heap w self) + 1.
Proof.
  set (c := reconnectAttempted (heap w self)).
  unfold reconnect_with.
  match goal with
  | |- context [bind ?m ?k] =>
      assert (Hk : preserves (counter_sat (fun x => x = c + 1) self) (k tt))
  end.
  { repeat first
      [ solve [auto using keep_node_this, keep_node_emit, keep_node_destroy,
                 keep_node_set_timers, preserves_state]
      | keep_step ]. }
  unfold bind at 1. cbn [update modify].
  apply Hk. unfold counter_sat; cbn. rewrite Pos.eqb_refl. reflexivity.
Qed.

(** C3, amended: no operation of a node connection resets or decrements
    the reconnect-attempt counter of any node; a successful open (like a
    failed info request after it) leaves the counter as it was, and each
    reconnect adds one to it. *)
Theorem reconnect_counter_never_reset
    (c : Call) (reply : Rest.Reply) (self r : NodeRef) (w : World) :
  reconnectAttempted (heap w r) <= reconnectAttempted (heap (exec c self w) r) /\
  reconnectAttempted (heap (exec (COpen reply) self w) r)
  = reconnectAttempted (heap w r) /\
  reconnectAttempted (heap (snd (reconnect self w)) self)
  = reconnectAttempted (heap w self) + 1.
Proof.
  split; [|split].
  - apply (keep_node_call (fun x => reconnectAttempted (heap w r) <= x) r);
      [intros; lia | unfold counter_sat; lia].
  - apply (keep_node_onOpen (fun x => x = reconnectAttempted (heap w r)) r).
    reflexivity.
  - apply reconnect_increments.
Qed.

(** A close never reaches the loop over the sessions, whatever member
    of the session that loop reads: [#onClose] has cleared [connected]
    by the time [destroy] tests it. *)
Lemma close_leaves_sessions (node_of : Player.t -> option NodeRef)
    (code : Z) (self : NodeRef) (w : World) :
  sessions (snd (onClose_with node_of code self w)) = sessions w.
Proof.
  unfold onClose_with, reconnect_with, destroy_with, cleanup, when,
    bind, this, state, update, emit, set_timers, set_nodeMap, modify; cbn.
  rewrite !Pos.eqb_refl; cbn.
  destruct (_ <=? _); cbn; [|reflexivity].
  rewrite !Pos.eqb_refl; cbn.
  destruct (ws _); cbn; reflexivity.
Qed.

(** C2, on the code: a node with [reconnectTries] 3 and one session
    bound to it goes through three failed opens. The node leaves the
    pool and the notification that the attempts are used up is emitted
    once; the session is not touched: it is still registered, still
    connected and still playing, and no command was issued for it. *)
Theorem exhausted_reconnects_leave_sessions :
  let w0 := Sample.world [("guild", Sample.bound_session)] in
  let w := exec_all Sample.three_failed_opens 1%positive w0 in
  reconnectAttempted (heap w 1%positive) = 3 /\
  nodeMap w = [] /\
  length (List.filter Sample.is_fatal (events w)) = 1%nat /\
  sessions w = [("guild", Sample.bound_session)] /\
  Player.connected Sample.bound_session = true /\
  Player.nodes Sample.bound_session = 1%positive /\
  List.filter (fun e => match e with FromPlayer _ _ => true | _ => false end)
    (events w) = [].
Proof. vm_compute. repeat apply conj; reflexivity. Qed.

End NodeConnection.

(** ** The node pool *)

Section NodePool.

Import Node Aqua.

Section Sorting.

Context {A : Type} (key : A -> Z).

Lemma insert_by_perm (x : A) (l : list A) :
  Permutation (insert_by key x l) (x :: l).
Proof.
  induction l as [|y l IH]; cbn; [reflexivity|].
  destruct (key x <=? key y); [reflexivity|].
  rewrite IH. apply perm_swap.
Qed.

Lemma sort_by_perm (l : list A) : Permutation (sort_by key l) l.
Proof.
  induction l as [|x l IH]; cbn; [reflexivity|].
  rewrite insert_by_perm. now constructor.
Qed.

Lemma insert_by_sorted (x : A) (l : list A) :
  StronglySorted (key_le key) l -> StronglySorted (key_le key) (insert_by key x l).
Proof.
  induction 1 as [|y l Hs IH Hy]; cbn.
  - repeat constructor.
  - destruct (key x <=? key y) eqn:E.
    + apply Z.leb_le in E. constructor; [now constructor|].
      constructor; [exact E|].
      eapply Forall_impl; [exact Hy|]. unfold key_le; intros; lia.
    + apply Z.leb_gt in E. constructor; [exact IH|].
      eapply Permutation_Forall; [symmetry; apply insert_by_perm|].
      constructor; [unfold key_le; lia | exact Hy].
Qed.

Lemma sort_by_sorted (l : list A) : StronglySorted (key_le key) (sort_by key l).
Proof.
  induction l as [|x l IH]; cbn; [constructor|].
  now apply insert_by_sorted.
Qed.

Lemma filter_insert_by (k : Z) (x : A) (s : list A) :
  List.filter (fun y => key y =? k) (insert_by key x s)
  = List.filter (fun y => key y =? k) (x :: s).
Proof.
  induction s as [|y s IHs]; cbn; [reflexivity|].
  destruct (key x <=? key y) eqn:E; cbn; [reflexivity|].
  apply Z.leb_gt in E. rewrite IHs; cbn.
  destruct (key x =? k) eqn:Ex; [|reflexivity].
  apply Z.eqb_eq in Ex.
  destruct (key y =? k) eqn:Ey; [|reflexivity].
  apply Z.eqb_eq in Ey. lia.
Qed.

(** Elements with equal keys keep their order. *)
Lemma sort_by_stable (k : Z) (l : list A) :
  List.filter (fun x => key x =? k) (sort_by key l)
  = List.filter (fun x => key x =? k) l.
Proof.
  induction l as [|x l IH]; [reflexivity|].
  change (sort_by key (x :: l)) with (insert_by key x (sort_by key l)).
  rewrite filter_insert_by; cbn. now rewrite IH.
Qed.

End Sorting.

Lemma leastUsedNodes_sort (w : World) :
  leastUsedNodes w
  = sort_by (calls_of w) (List.filter (is_connected w) (values w)).
Proof. unfold leastUsedNodes. destruct (List.filter _ _); reflexivity. Qed.

(** C4, as stated, fails: in a pool of two connected nodes the
    selection lists the node with penalty 5 before the node with
    penalty 0. *)
Lemma selection_not_ordered_by_penalty :
  ~ StronglySorted Z.le
      (map (fun r => penalties (fun _ => 0) (heap Sample.two_nodes r))
           (leastUsedNodes Sample.two_nodes)).
Proof.
  intros H. vm_compute in H.
  inversion H as [|? ? _ Hall]. inversion Hall as [|? ? Hle _].
  apply Hle. reflexivity.
Qed.

(** The penalty of a connected node is not bounded by that of a
    disconnected one when a counter of its stats frame is large. *)
Lemma crowded_node_penalty_not_below :
  ~ penalties (fun _ => 0) Sample.crowded_node
    < penalties (fun _ => 0) Sample.node1.
Proof. vm_compute. discriminate. Qed.

Lemma penalties_disconnected (load_penalty : Q -> Z) (n : Node.t) :
  connected n = false -> penalties load_penalty n = MAX_SAFE_INTEGER.
Proof. intros H. unfold penalties. now rewrite H. Qed.

(** C4, amended: selection without a region returns exactly the
    connected nodes of the pool, in ascending order of the number of
    requests each has served; it never returns a node that is not
    connected. The penalty of a node that is not connected is 2^53 - 1,
    and it is strictly greater than the penalty of a connected node
    whose player count, load term, deficit and nulled counts are each
    below 2^50. *)
Theorem selection_orders_connected_nodes_by_calls
    (load_penalty : Q -> Z) (w : World) (a b : Node.t) :
  Permutation (leastUsedNodes w) (List.filter (is_connected w) (values w)) /\
  StronglySorted (key_le (calls_of w)) (leastUsedNodes w) /\
  Forall (fun r => is_connected w r = true) (leastUsedNodes w) /\
  (connected a = false -> penalties load_penalty a = 2 ^ 53 - 1) /\
  (connected a = false ->
   connected b = true ->
   players (stats b) < 2 ^ 50 ->
   load_penalty (systemLoad (stats b)) < 2 ^ 50 ->
   deficit (stats b) < 2 ^ 50 ->
   nulled (stats b) < 2 ^ 50 ->
   penalties load_penalty b < penalties load_penalty a).
Proof.
  rewrite leastUsedNodes_sort. repeat apply conj.
  - apply sort_by_perm.
  - apply sort_by_sorted.
  - eapply Permutation_Forall; [symmetry; apply sort_by_perm|].
    apply List.Forall_forall. intros r Hr. now apply filter_In in Hr.
  - apply penalties_disconnected.
  - intros Ha Hb Hp Hl Hd Hn.
    rewrite (penalties_disconnected _ a Ha).
    unfold penalties, MAX_SAFE_INTEGER. rewrite Hb; cbn [negb].
    destruct (Qeq_bool _ _); lia.
Qed.

Lemma selection_orders_connected_nodes_by_calls_witness :
  leastUsedNodes Sample.two_nodes = [1%positive; 2%positive] /\
  penalties (fun _ => 0) Sample.busy_node
  < penalties (fun _ => 0) Sample.node1.
Proof.
  split; [vm_compute; reflexivity|].
  apply (selection_orders_connected_nodes_by_calls
           (fun _ => 0) Sample.two_nodes Sample.node1 Sample.busy_node);
    vm_compute; reflexivity.
Defined.

End NodePool.

(** ** Further properties of the queue and the session *)

Section QueueAndHistory.

Import Player.

Lemma swap_perm (i j : nat) (q : Queue.t) : Permutation (QueueApi.swap i j q) q.
Proof.
  unfold QueueApi.swap.
  destruct (q !! i) as [a|] eqn:Hi; [|reflexivity].
  destruct (q !! j) as [b|] eqn:Hj; [|reflexivity].
  now apply Permutation_insert_swap.
Qed.

Lemma shuffle_from_perm (pick : nat -> nat) (i : nat) (q : Queue.t) :
  Permutation (QueueApi.shuffle_from pick i q) q.
Proof.
  revert q. induction i as [|i IH]; intros q; cbn [QueueApi.shuffle_from].
  - reflexivity.
  - rewrite IH. apply swap_perm.
Qed.

(** X1: whatever numbers are drawn, [shuffle()] returns a rearrangement
    of the queue: no track is lost or duplicated, and the length is
    kept. The same holds for the session's [shuffle()], which touches
    nothing but the queue. *)
Theorem shuffle_rearranges_the_queue
    (pick : nat -> nat) (q : Queue.t) (s : St) :
  Permutation (QueueApi.shuffle pick q) q /\
  length (QueueApi.shuffle pick q) = length q /\
  Permutation (queue (fst (snd (PlayerApi.shuffle pick s)))) (queue (fst s)) /\
  current (fst (snd (PlayerApi.shuffle pick s))) = current (fst s) /\
  snd (snd (PlayerApi.shuffle pick s)) = snd s.
Proof.
  assert (H : forall q, Permutation (QueueApi.shuffle pick q) q)
    by (intros; apply shuffle_from_perm).
  repeat apply conj; try apply H.
  - apply Permutation_length, H.
  - reflexivity.
  - reflexivity.
Qed.

Lemma drain_firstn (n : nat) (q : Queue.t) :
  QueueApi.drain n q = (firstn n q, skipn n q).
Proof.
  revert q. induction n as [|n IH]; intros [|x q]; cbn; try reflexivity.
  now rewrite IH.
Qed.

Lemma enqueue_all (xs : list Item) (q : Queue.t) :
  fold_left (fun q x => QueueApi.enqueue x q) xs q = q ++ xs.
Proof.
  revert q. induction xs as [|x xs IH]; intros q; cbn.
  - now rewrite app_nil_r.
  - rewrite IH. unfold QueueApi.enqueue, QueueApi.add, Queue.push.
    now rewrite <- app_assoc.
Qed.

(** X2: the queue is first-in first-out: after [enqueue] of [xs] in
    turn, as many [dequeue]s as the queue is long return the old
    elements and then [xs], in order, and leave the queue empty; one
    [dequeue] more returns nothing. *)
Theorem queue_is_first_in_first_out (xs : list Item) (q : Queue.t) :
  let q' := fold_left (fun q x => QueueApi.enqueue x q) xs q in
  QueueApi.size q' = QueueApi.size q + Z.of_nat (length xs) /\
  QueueApi.drain (length q') q' = (q ++ xs, []) /\
  QueueApi.dequeue (snd (QueueApi.drain (length q') q')) = (None, []).
Proof.
  cbv zeta. rewrite enqueue_all, drain_firstn.
  rewrite firstn_all, skipn_all. repeat apply conj; try reflexivity.
  unfold QueueApi.size. rewrite length_app. lia.
Qed.

Lemma addToPreviousTrack_eq (x : Item) (p : t) (log : list Effect) :
  addToPreviousTrack x (p, log)
  = (Ok tt,
     (set_previousTracks
        (x :: (if 50 <=? Z.of_nat (length (previousTracks p))
               then removelast (previousTracks p) else previousTracks p)) p,
      log)).
Proof.
  unfold addToPreviousTrack, bind, this, when, update, modify; cbn.
  destruct (50 <=? _); reflexivity.
Qed.

Lemma firstn_evict (l h : list Item) (x : Item) :
  length h = 50%nat ->
  firstn 50 (l ++ x :: removelast h) = firstn 50 (l ++ x :: h).
Proof.
  intros Hh. rewrite !firstn_app. f_equal.
  destruct (50 - length l)%nat as [|k] eqn:Hk; [reflexivity|].
  cbn [firstn]. f_equal.
  rewrite removelast_firstn_len, Hh, firstn_firstn.
  f_equal. lia.
Qed.

Lemma record_all_history (xs : list Item) (p : t) (log : list Effect) :
  (length (previousTracks p) <= 50)%nat ->
  previousTracks (fst (PlayerApi.record_all xs (p, log)))
  = firstn 50 (rev xs ++ previousTracks p).
Proof.
  revert p. induction xs as [|x xs IH]; intros p Hp.
  - cbn. symmetry. now apply firstn_all2.
  - cbn [PlayerApi.record_all fold_left].
    rewrite addToPreviousTrack_eq; cbn [snd].
    fold (PlayerApi.record_all xs).
    destruct (50 <=? Z.of_nat (length (previousTracks p))) eqn:E.
    + apply Z.leb_le in E.
      assert (Hlen : length (previousTracks p) = 50%nat) by lia.
      rewrite IH.
      * cbn [previousTracks set_previousTracks rev].
        rewrite <- app_assoc. cbn [app]. now apply firstn_evict.
      * cbn. rewrite removelast_firstn_len, length_firstn. lia.
    + apply Z.leb_gt in E. rewrite IH.
      * cbn [previousTracks set_previousTracks rev].
        now rewrite <- app_assoc.
      * cbn. lia.
Qed.

(** X3: the history keeps the 50 most recent tracks, most recent first:
    starting from a history of at most 50 entries, recording [xs] one by
    one leaves the first 50 entries of [xs] reversed followed by the old
    history. It never grows beyond 50, and [previous] is the track
    recorded last. *)
Theorem history_keeps_the_50_most_recent
    (xs : list Item) (x : Item) (p : t) (log : list Effect) :
  (length (previousTracks p) <= 50)%nat ->
  let h := previousTracks (fst (PlayerApi.record_all (xs ++ [x]) (p, log))) in
  h = firstn 50 (x :: rev xs ++ previousTracks p) /\
  (length h <= 50)%nat /\
  PlayerApi.previous (fst (PlayerApi.record_all (xs ++ [x]) (p, log))) = x.
Proof.
  intros Hp h.
  assert (Hh : h = firstn 50 (x :: rev xs ++ previousTracks p)).
  { subst h. rewrite record_all_history by exact Hp.
    now rewrite rev_app_distr. }
  repeat apply conj.
  - exact Hh.
  - rewrite Hh, length_firstn. lia.
  - unfold PlayerApi.previous. fold h. rewrite Hh. reflexivity.
Qed.

End QueueAndHistory.

Section SessionBehaviour.

Import Player.

Lemma history_keeps_the_50_most_recent_witness :
  let item n :=
    ITrack {| track := Some "QAAAA"; identifier := "";
              author := ""; title := String (ascii_of_nat (65 + n)) "" |} in
  previousTracks
    (fst (PlayerApi.record_all (map item (seq 0 51))
            (new 1%positive Sample.options, [])))
  = map item (rev (seq 1 50)).
Proof.
  cbv zeta.
  destruct (history_keeps_the_50_most_recent
              (map (fun n => ITrack {| track := Some "QAAAA"; identifier := "";
                     author := "";
                     title := String (ascii_of_nat (65 + n)) "" |}) (seq 0 50))
              (ITrack {| track := Some "QAAAA"; identifier := "";
                     author := ""; title := String (ascii_of_nat (65 + 50)) "" |})
              (new 1%positive Sample.options) []
              ltac:(cbn; lia)) as [H _].
  vm_compute in H |- *. exact H.
Defined.

(** X4: [destroy()] is idempotent, and a destroyed session holds
    nothing: queue and history are empty, there is no current track, it
    is neither playing nor connected. [play()] on it raises the
    "must be connected" error and changes nothing. *)
Theorem destroy_is_idempotent_and_final (s : St) :
  let s' := snd (destroy s) in
  snd (destroy s') = s' /\
  (connected (fst s) = true ->
   queue (fst s') = [] /\ previousTracks (fst s') = [] /\
   current (fst s') = INull /\ playing (fst s') = false /\
   connected (fst s') = false /\
   snd s' = snd s ++ [UpdatePlayer (guildId (fst s)) (PTrack None);
                      Send (guildId (fst s)) None None None]) /\
  play s' = (Throw (Err "Player must be connected first."), s').
Proof.
  destruct s as [p log].
  destruct p as [? ? ? ? ? ? ? ? ? ? ? ? c ? ? ? ? ? ? ? ?].
  cbv zeta. unfold destroy, play, bind, this; cbn.
  destruct c; cbn.
  - split; [reflexivity|split; [|reflexivity]].
    intros _. rewrite <- app_assoc. repeat apply conj; reflexivity.
  - split; [reflexivity|split; [discriminate|reflexivity]].
Qed.

Lemma destroy_is_idempotent_and_final_witness :
  let p := Sample.playing LoopNone (ITrack Sample.trackA) [ITrack Sample.trackB] in
  queue (fst (snd (run destroy p))) = [] /\
  connected (fst (snd (run destroy p))) = false /\
  snd (snd (run destroy p))
  = [UpdatePlayer "guild" (PTrack None); Send "guild" None None None].
Proof.
  cbv zeta.
  destruct (destroy_is_idempotent_and_final
              (Sample.playing LoopNone (ITrack Sample.trackA)
                 [ITrack Sample.trackB], [])) as (_ & H & _).
  destruct (H eq_refl) as (H1 & _ & _ & _ & H5 & H6).
  repeat apply conj; [exact H1 | exact H5 | exact H6].
Defined.

(** X5: [play()] takes at most the head off the queue: on a connected
    session the queue afterwards is its tail, whatever the head was and
    whether or not the call throws; on a session that is not connected
    the call throws and changes nothing. *)
Theorem play_takes_only_the_head (p : t) (log : list Effect) :
  queue (fst (snd (play (p, log))))
  = (if connected p then tl (queue p) else queue p) /\
  (connected p = false ->
   play (p, log) = (Throw (Err "Player must be connected first."), (p, log))) /\
  (connected p = true -> queue p = [] -> play (p, log) = (Ok tt, (p, log))).
Proof.
  destruct p as [? ? ? ? ? ? ? q ? ? ? ? c ? ? ? ? ? ? ? ?];
    cbn [connected queue].
  unfold play, bind, this; cbn.
  destruct c; cbn.
  - repeat apply conj; [|discriminate|intros _ ->; reflexivity].
    destruct q as [|[x|x|] q]; reflexivity.
  - repeat apply conj; [reflexivity|reflexivity|discriminate].
Qed.

Lemma play_takes_only_the_head_witness :
  play (new 1%positive Sample.options, [])
  = (Throw (Err "Player must be connected first."),
     (new 1%positive Sample.options, [])) /\
  play (Sample.idle LoopNone [], []) = (Ok tt, (Sample.idle LoopNone [], [])).
Proof.
  split.
  - apply (play_takes_only_the_head (new 1%positive Sample.options) []).
    reflexivity.
  - apply (play_takes_only_the_head (Sample.idle LoopNone []) []);
      reflexivity.
Defined.

(** X6: a queued track without a token is not resolved before it is
    started: [play()] makes the pending resolution the current track,
    marks the session playing, and sends a track patch whose token is
    [undefined], since a promise has no [track] member. This is the
    patch with an empty [track] object, not the one with a [null] token
    that [stop()] and [destroy()] send. *)
Theorem play_does_not_await_resolution
    (p : t) (log : list Effect) (x : Track) (q : Queue.t) :
  connected p = true ->
  queue p = ITrack x :: q ->
  truthy (track x) = false ->
  let s' := snd (play (p, log)) in
  fst (play (p, log)) = Ok tt /\
  current (fst s') = IPromise x /\
  playing (fst s') = true /\
  queue (fst s') = q /\
  snd s' = log ++ [Debug "Playing track: undefined";
                   UpdatePlayer (guildId p) PTrackMissing] /\
  snd (snd (stop s'))
  = snd s' ++ [UpdatePlayer (guildId p) (PTrack None)].
Proof.
  destruct p; cbn [connected queue guildId].
  intros -> -> Hx. unfold play, stop, bind, this; cbn. rewrite Hx; cbn.
  rewrite <- !app_assoc. repeat apply conj; reflexivity.
Qed.

Lemma play_does_not_await_resolution_witness :
  let x := {| track := None; identifier := "a"; author := "x"; title := "A" |} in
  let s' := snd (run play (Sample.idle LoopNone [ITrack x])) in
  current (fst s') = IPromise x /\
  snd s' = [Debug "Playing track: undefined";
            UpdatePlayer "guild" PTrackMissing].
Proof.
  cbv zeta.
  destruct (play_does_not_await_resolution
              (Sample.idle LoopNone
                 [ITrack {| track := None; identifier := "a";
                            author := "x"; title := "A" |}])
              [] {| track := None; identifier := "a"; author := "x"; title := "A" |}
              [] eq_refl eq_refl eq_refl) as (_ & H2 & _ & _ & H5 & _).
  split; [exact H2 | exact H5].
Defined.

End SessionBehaviour.

Section EngineEvents.

Import Player.

(** X7: under loop mode track the end of a track, for a reason other
    than load failure or cleanup, starts the same track again and leaves
    the queue as it was; under loop mode queue the finished track goes
    to the tail and the head of the queue so extended (the finished
    track itself when the queue was empty) becomes current. *)
Theorem loop_modes_requeue_the_finished_track
    (p : t) (log : list Effect) (a h : Track) (rest : Queue.t)
    (payload : EventPayload) :
  connected p = true ->
  current p = ITrack a ->
  truthy (track a) = true ->
  truthy (track h) = true ->
  type payload = "TrackEndEvent" ->
  is_load_failure_or_cleanup (reason payload) = false ->
  let s' := snd (handleEvent true payload (p, log)) in
  (loop p = LoopTrack ->
   current (fst s') = ITrack a /\ queue (fst s') = queue p /\
   playing (fst s') = true) /\
  (loop p = LoopQueue ->
   queue p ++ [ITrack a] = ITrack h :: rest ->
   current (fst s') = ITrack h /\ queue (fst s') = rest /\
   playing (fst s') = true).
Proof.
  destruct p as [? ? ? ? ? ? l q ? cur ? ? c ? ? ? ? ? ? ? ?],
    payload as [cd ty r]; cbn [connected current loop queue type reason].
  intros -> -> Ha Hh -> Hr.
  unfold handleEvent, catch, trackEnd, bind, this, when; cbn.
  rewrite Hr; cbn.
  split.
  - intros ->. destruct (_ && _); cbn;
      unfold play, bind, this; cbn; rewrite Ha; cbn; auto.
  - intros -> Hq.
    destruct (_ && _); cbn; unfold Queue.push; rewrite Hq;
      unfold play, bind, this; cbn; rewrite Hh; cbn; auto.
Qed.

Lemma loop_modes_requeue_the_finished_track_witness :
  let replay := Sample.after_trackEnd "finished"
    (Sample.playing LoopTrack (ITrack Sample.trackA) [ITrack Sample.trackB]) in
  let rotate := Sample.after_trackEnd "finished"
    (Sample.playing LoopQueue (ITrack Sample.trackA) []) in
  (current replay = ITrack Sample.trackA /\
   queue replay = [ITrack Sample.trackB]) /\
  (current rotate = ITrack Sample.trackA /\ queue rotate = []).
Proof.
  cbv zeta. split.
  - destruct (loop_modes_requeue_the_finished_track
      (Sample.playing LoopTrack (ITrack Sample.trackA) [ITrack Sample.trackB])
      [] Sample.trackA Sample.trackA [] (Sample.trackEndEvent "finished")
      eq_refl eq_refl eq_refl eq_refl eq_refl eq_refl) as [H _].
    destruct (H eq_refl) as (H1 & H2 & _). split; [exact H1|exact H2].
  - destruct (loop_modes_requeue_the_finished_track
      (Sample.playing LoopQueue (ITrack Sample.trackA) [])
      [] Sample.trackA Sample.trackA [] (Sample.trackEndEvent "finished")
      eq_refl eq_refl eq_refl eq_refl eq_refl eq_refl) as [_ H].
    destruct (H eq_refl eq_refl) as (H1 & H2 & _). split; [exact H1|exact H2].
Defined.

(** X8: when a track ends with nothing queued under loop mode none,
    the handler announces the end of the queue once, destroys a session
    that is not paused and gives it an empty store; the [play()] that
    follows then raises the "must be connected" error, so the promise
    of the handler is rejected. The dispatcher returns normally and
    nothing handles the rejection: it is left behind as an unhandled
    rejection with that error. A paused session stays connected and
    nothing is rejected. *)
Theorem queue_exhaustion_destroys_the_session
    (p : t) (log : list Effect) (x : Item) (payload : EventPayload) :
  connected p = true ->
  loop p = LoopNone ->
  queue p = [] ->
  is_load_failure_or_cleanup (reason payload) = false ->
  let r := trackEnd x payload (p, log) in
  let s' := snd r in
  playing (fst s') = false /\
  dataStore (fst s') = Some ∅ /\
  PlayerApi.count PlayerApi.is_queueEnd (snd s')
  = S (PlayerApi.count PlayerApi.is_queueEnd log) /\
  connected (fst s') = paused p /\
  fst r = (if paused p then Ok tt
           else Throw (Err "Player must be connected first.")) /\
  (type payload = "TrackEndEvent" ->
   current p = x ->
   handleEvent true payload (p, log)
   = (Ok tt,
      (fst s',
       snd s' ++ (if paused p then []
                  else [Unhandled (Err "Player must be connected first.")])))).
Proof.
  destruct p as [? ? ? ? ? ? l q ? cur ? pa c ? ? ? ? ? ? ? ?],
    payload as [cd ty r0];
    cbn [connected loop queue reason paused type current].
  intros -> -> -> Hr. cbv zeta.
  repeat apply conj;
    [| | | | |
     intros -> ->; unfold handleEvent;
     cbn [negb String.eqb Ascii.eqb Bool.eqb];
     unfold bind at 1, this at 1; cbn [fst snd current type];
     unfold catch];
    unfold trackEnd, bind, this, when, effect, modify; cbn;
    rewrite Hr; cbn; unfold PlayerApi.count;
    destruct (_ && _), pa; cbn;
    rewrite ?List.filter_app, ?length_app, ?app_nil_r; cbn;
    try reflexivity; lia.
Qed.

Lemma queue_exhaustion_destroys_the_session_witness :
  let p := Sample.playing LoopNone (ITrack Sample.trackA) [] in
  let r := Player.run
    (trackEnd (ITrack Sample.trackA) (Sample.trackEndEvent "finished")) p in
  let d := Player.run
    (handleEvent true (Sample.trackEndEvent "finished")) p in
  connected (fst (snd r)) = false /\
  dataStore (fst (snd r)) = Some ∅ /\
  fst r = Throw (Err "Player must be connected first.") /\
  fst d = Ok tt /\
  PlayerApi.count PlayerApi.is_unhandled (snd (snd d)) = 1%nat.
Proof.
  cbv zeta.
  destruct (queue_exhaustion_destroys_the_session
              (Sample.playing LoopNone (ITrack Sample.trackA) []) []
              (ITrack Sample.trackA) (Sample.trackEndEvent "finished")
              eq_refl eq_refl eq_refl eq_refl)
    as (_ & H2 & _ & H4 & H5 & H6).
  repeat apply conj; [exact H4 | exact H2 | exact H5 | |].
  - unfold Player.run. rewrite (H6 eq_refl eq_refl). reflexivity.
  - unfold Player.run. rewrite (H6 eq_refl eq_refl). vm_compute. reflexivity.
Defined.

(** X9: when a track ends by load failure or cleanup with nothing
    queued, the handler only announces the end of the queue: the
    session keeps its playing flag, its connection, its current track
    and its store, and no command is sent. *)
Theorem load_failure_on_empty_queue_only_announces
    (p : t) (log : list Effect) (x : Item) (payload : EventPayload) :
  queue p = [] ->
  is_load_failure_or_cleanup (reason payload) = true ->
  let r := trackEnd x payload (p, log) in
  let s' := snd r in
  fst r = Ok tt /\
  playing (fst s') = playing p /\
  connected (fst s') = connected p /\
  current (fst s') = current p /\
  dataStore (fst s') = dataStore p /\
  PlayerApi.count PlayerApi.is_queueEnd (snd s')
  = S (PlayerApi.count PlayerApi.is_queueEnd log) /\
  List.filter PlayerApi.is_command (snd s') = List.filter PlayerApi.is_command log.
Proof.
  destruct p as [? ? ? ? ? ? l q ? cur ? pa c ? ? ? ? ? ? ? ?],
    payload as [cd ty r0]; cbn [queue reason playing connected current dataStore].
  intros -> Hr.
  unfold trackEnd, bind, this, when; cbn.
  rewrite Hr; cbn.
  unfold PlayerApi.count.
  destruct (_ && _); cbn; rewrite ?List.filter_app, ?length_app; cbn;
    rewrite ?app_nil_r; repeat apply conj; try reflexivity; lia.
Qed.

Lemma load_failure_on_empty_queue_only_announces_witness :
  let r := Player.run
    (trackEnd (ITrack Sample.trackA) (Sample.trackEndEvent "loadFailed"))
    (Sample.playing LoopNone (ITrack Sample.trackA) []) in
  fst r = Ok tt /\ playing (fst (snd r)) = true.
Proof.
  cbv zeta.
  destruct (load_failure_on_empty_queue_only_announces
              (Sample.playing LoopNone (ITrack Sample.trackA) []) []
              (ITrack Sample.trackA) (Sample.trackEndEvent "loadFailed")
              eq_refl eq_refl) as (H1 & H2 & _).
  split; [exact H1 | exact H2].
Defined.

Lemma stop_ok (s : St) : fst (stop s) = Ok tt.
Proof.
  destruct s as [p log]. unfold stop, bind, this; cbn.
  destruct (playing p); reflexivity.
Qed.

Lemma handleEvent_ok (registered : bool) (payload : EventPayload) (s : St) :
  fst (handleEvent registered payload s) = Ok tt.
Proof.
  unfold handleEvent. destruct registered; [|reflexivity].
  cbn [negb]. unfold bind at 1, this; cbn [fst snd].
  repeat match goal with
         | |- context [if String.eqb ?a ?b then _ else _] =>
             destruct (String.eqb a b)
         end;
    try reflexivity.
  - unfold catch.
    destruct (trackEnd _ _ _) as [[[]|e] s']; reflexivity.
  - unfold trackError, bind, effect, modify; cbn [fst snd]. apply stop_ok.
  - unfold trackStuck, bind, effect, modify; cbn [fst snd]. apply stop_ok.
Qed.

(** X10: no engine event throws back into the dispatcher, whatever the
    payload and the state of the session; an event for a guild that has
    no registered session changes nothing; an event whose type has no
    handler changes nothing but reports a node error. *)
Theorem handleEvent_never_throws
    (registered : bool) (payload : EventPayload) (s : St) :
  fst (handleEvent registered payload s) = Ok tt /\
  handleEvent false payload s = (Ok tt, s) /\
  (existsb (String.eqb (type payload)) PlayerApi.known_events = false ->
   handleEvent true payload s
   = (Ok tt, (fst s, snd s ++ [Emit "nodeError" None]))).
Proof.
  repeat apply conj; [|reflexivity|].
  - apply handleEvent_ok.
  - cbn [existsb PlayerApi.known_events]. intros H.
    repeat (apply orb_false_iff in H as [? H]).
    unfold handleEvent. cbn [negb]. unfold bind at 1, this; cbn [fst snd].
    repeat match goal with
           | E : String.eqb ?a ?b = false |- _ => rewrite E; clear E
           end.
    destruct s; reflexivity.
Qed.

Lemma handleEvent_never_throws_witness :
  handleEvent true
    {| code := None; type := "PlayerCreatedEvent"; reason := None |}
    (Sample.idle LoopNone [], [])
  = (Ok tt, (Sample.idle LoopNone [], [Emit "nodeError" None])).
Proof.
  apply (handleEvent_never_throws true
           {| code := None; type := "PlayerCreatedEvent"; reason := None |}
           (Sample.idle LoopNone [], [])).
  reflexivity.
Defined.

(** X11: a track error or a stuck track stops playback and does not
    move on: the session is no longer playing, and its queue and
    current track are as they were. *)
Theorem track_error_stops_without_advancing (x : Item) (s : St) :
  let e := snd (trackError x s) in
  let k := snd (trackStuck x s) in
  playing (fst e) = false /\ queue (fst e) = queue (fst s) /\
  current (fst e) = current (fst s) /\
  playing (fst k) = false /\ queue (fst k) = queue (fst s) /\
  current (fst k) = current (fst s).
Proof.
  destruct s as [p log].
  destruct p as [? ? ? ? ? ? ? ? ? ? pl ? ? ? ? ? ? ? ? ? ?].
  cbv zeta. unfold trackError, trackStuck, stop, bind, this, effect, modify; cbn.
  destruct pl; cbn; repeat apply conj; reflexivity.
Qed.

End EngineEvents.

(** ** Further properties of the voice link *)

Section VoiceSignals.

Import Connection VoiceState.

Lemma cleanup_detaches (s : St) : detached (snd (cleanup s)).
Proof.
  destruct s as [c log]. unfold detached, cleanup, bind, this; cbn.
  destruct (player c); reflexivity.
Qed.

(** X12: a state update without a channel id or without a session id
    tears the link down at once, whatever the throttle window: the link
    lets go of its session and forgets credentials, region and channel;
    a connected session it held is destroyed between a leave and a
    destroy notification, with a clear-track patch and a gateway frame
    that leaves the channel. *)
Theorem state_update_without_ids_tears_down
    (data : StateUpdate) (c : t) (log : list Effect) :
  truthy (channel_id data) && truthy (session_id data) = false ->
  let s' := snd (setStateUpdate data (c, log)) in
  fst (setStateUpdate data (c, log)) = Ok tt /\
  player (fst s') = None /\
  voice (fst s') = {| sessionId := None; endpoint := None; token := None |} /\
  region (fst s') = None /\
  voiceChannel (fst s') = None /\
  (forall p, player c = Some p -> Player.connected p = true ->
     snd s' = log ++ [Emit "playerLeave" None;
                      UpdatePlayer (Player.guildId p) (PTrack None);
                      Send (Player.guildId p) None None None;
                      Emit "playerDestroy" None]).
Proof.
  intros Hd. unfold setStateUpdate.
  replace (negb (truthy (channel_id data)) || negb (truthy (session_id data)))
    with true by (destruct (truthy (channel_id data)),
                    (truthy (session_id data)); cbn in *; congruence).
  destruct c as [pl ? ? ? ? ? ? ?]. cbv zeta.
  unfold cleanup, bind, this; cbn.
  destruct pl as [p|]; cbn.
  - repeat apply conj; try reflexivity.
    intros p' [= <-] Hc.
    destruct p as [? ? ? ? ? ? ? ? ? ? ? ? cn ? ? ? ? ? ? ? ?].
    cbn in Hc; subst cn.
    unfold Player.run, Player.destroy, bind, Player.this; cbn.
    rewrite <- !app_assoc. reflexivity.
  - repeat apply conj; try reflexivity. intros p' [=].
Qed.

Lemma state_update_without_ids_tears_down_witness :
  let c := new (Sample.playing LoopNone (ITrack Sample.trackA) []) in
  let data := {| channel_id := None; session_id := Some "s";
                 self_deaf := false; self_mute := false |} in
  player (fst (snd (setStateUpdate data (c, [])))) = None /\
  snd (snd (setStateUpdate data (c, [])))
  = [Emit "playerLeave" None; UpdatePlayer "guild" (PTrack None);
     Send "guild" None None None; Emit "playerDestroy" None].
Proof.
  cbv zeta.
  destruct (state_update_without_ids_tears_down
              {| channel_id := None; session_id := Some "s";
                 self_deaf := false; self_mute := false |}
              (new (Sample.playing LoopNone (ITrack Sample.trackA) [])) []
              eq_refl) as (_ & H2 & _ & _ & _ & H6).
  split; [exact H2|].
  exact (H6 _ eq_refl eq_refl).
Defined.

Lemma signal_keeps_detached (sg : Signal) (s : St) :
  detached s ->
  detached (snd (signal sg s)) /\ pushes (snd (snd (signal sg s))) = pushes (snd s).
Proof.
  destruct s as [c log]. unfold detached; cbn [fst snd]. intros Hp.
  destruct c as [pl v rg sd sm vc lt ut]. cbn in Hp. subst pl.
  destruct sg as [e tk now|data]; cbn [signal].
  - unfold setServerUpdate.
    destruct e as [e|]; [|split; reflexivity].
    destruct (String.eqb e ""); [split; reflexivity|].
    unfold bind, this, updateRegion, debug, updatePlayerVoiceData; cbn.
    destruct (bool_decide _); cbn; destruct (_ <=? _); cbn; split; reflexivity.
  - unfold setStateUpdate.
    destruct (negb _ || negb _).
    + unfold cleanup, bind, this; cbn. split; reflexivity.
    + unfold bind, this; cbn.
      destruct (bool_decide _); cbn; split; reflexivity.
Qed.

(** X13: after the teardown the link never transmits again: whatever
    server and state updates arrive, it stays without a session and no
    further credential push enters the log. *)
Theorem torn_down_link_never_pushes
    (data : StateUpdate) (sgs : list Signal) (s : St) :
  truthy (channel_id data) && truthy (session_id data) = false ->
  let s0 := snd (setStateUpdate data s) in
  detached (signal_all sgs s0) /\
  pushes (snd (signal_all sgs s0)) = pushes (snd s0).
Proof.
  intros Hd s0.
  assert (H0 : detached s0).
  { subst s0. unfold setStateUpdate.
    replace (negb (truthy (channel_id data)) || negb (truthy (session_id data)))
      with true by (destruct (truthy (channel_id data)),
                      (truthy (session_id data)); cbn in *; congruence).
    apply cleanup_detaches. }
  clearbody s0. revert s0 H0.
  induction sgs as [|sg sgs IH]; intros s0 H0; cbn; [auto|].
  destruct (signal_keeps_detached sg s0 H0) as [H1 H2].
  destruct (IH _ H1) as [H3 H4]. split; [exact H3|].
  unfold signal_all in H4. rewrite H4. exact H2.
Qed.

Lemma torn_down_link_never_pushes_witness :
  let gone := {| channel_id := None; session_id := None;
                 self_deaf := false; self_mute := false |} in
  let s0 := snd (setStateUpdate gone
                   (new (Sample.idle LoopNone []), [])) in
  pushes (snd (signal_all
                 [ServerUpdate (Some "us-east1.example.net") (Some "t")
                    1700000000000] s0))
  = pushes (snd s0).
Proof.
  cbv zeta.
  apply (torn_down_link_never_pushes
           {| channel_id := None; session_id := None;
              self_deaf := false; self_mute := false |}
           [ServerUpdate (Some "us-east1.example.net") (Some "t") 1700000000000]
           (new (Sample.idle LoopNone []), [])).
  reflexivity.
Defined.

(** X14: a state update is idempotent: delivering the same update a
    second time changes neither the link nor the log. An update that
    carries both ids stores the session id, the flags and the channel,
    and leaves endpoint, token, region and the throttle clock alone; it
    transmits nothing. *)
Theorem state_update_is_idempotent (data : StateUpdate) (s : St) :
  let s' := snd (setStateUpdate data s) in
  snd (setStateUpdate data s') = s' /\
  (truthy (channel_id data) && truthy (session_id data) = true ->
   sessionId (voice (fst s')) = session_id data /\
   voiceChannel (fst s') = channel_id data /\
   endpoint (voice (fst s')) = endpoint (voice (fst s)) /\
   token (voice (fst s')) = token (voice (fst s)) /\
   region (fst s') = region (fst s) /\
   lastUpdateTime (fst s') = lastUpdateTime (fst s) /\
   pushes (snd s') = pushes (snd s)).
Proof.
  destruct s as [c log]. destruct c as [pl v rg sd sm vc lt ut].
  cbv zeta. unfold setStateUpdate.
  destruct (truthy (channel_id data)), (truthy (session_id data)); cbn [negb orb andb].
  2-4: split; [|discriminate];
       unfold cleanup, bind, this; cbn; destruct pl; reflexivity.
  unfold bind, this; cbn.
  destruct (bool_decide (vc = channel_id data)) eqn:E; cbn.
  - rewrite bool_decide_eq_true_2 by reflexivity. cbn.
    split; [reflexivity|]. intros _. repeat apply conj; reflexivity.
  - destruct pl; cbn; rewrite bool_decide_eq_true_2 by reflexivity; cbn;
      (split; [reflexivity|]); intros _; repeat apply conj; try reflexivity.
    unfold pushes. rewrite List.filter_app. cbn. now rewrite app_nil_r.
Qed.

Lemma state_update_is_idempotent_witness :
  let data := {| channel_id := Some "other"; session_id := Some "s";
                 self_deaf := true; self_mute := false |} in
  let s' := snd (setStateUpdate data (new (Sample.idle LoopNone []), [])) in
  sessionId (voice (fst s')) = Some "s" /\ voiceChannel (fst s') = Some "other".
Proof.
  cbv zeta.
  destruct (state_update_is_idempotent
              {| channel_id := Some "other"; session_id := Some "s";
                 self_deaf := true; self_mute := false |}
              (new (Sample.idle LoopNone []), [])) as [_ H].
  destruct (H eq_refl) as (H1 & H2 & _). split; [exact H1|exact H2].
Defined.

Lemma strip_digits_idem (s : string) : strip_digits (strip_digits s) = strip_digits s.
Proof.
  induction s as [|a s IH]; cbn; [reflexivity|].
  destruct (is_digit a) eqn:E; [exact IH|]. cbn. now rewrite E, IH.
Qed.

Lemma first_segment_strip (s : string) :
  first_segment (strip_digits (first_segment s)) = strip_digits (first_segment s).
Proof.
  induction s as [|a s IH]; cbn; [reflexivity|].
  destruct (Ascii.eqb a ".") eqn:E; [reflexivity|]. cbn.
  destruct (is_digit a); [exact IH|]. cbn. now rewrite E, IH.
Qed.

Lemma derive_region_chars (s : string) (a : ascii) :
  In a (list_ascii_of_string (derive_region s)) ->
  is_digit a = false /\ a <> "."%char.
Proof.
  unfold derive_region. induction s as [|b s IH]; cbn; [tauto|].
  destruct (Ascii.eqb b ".") eqn:E; cbn; [tauto|].
  destruct (is_digit b) eqn:D; [exact IH|]. cbn. intros [<-|H]; [|auto].
  split; [exact D|]. now apply Ascii.eqb_neq.
Qed.

(** X15: the region derived from an endpoint contains no digit and no
    dot, and deriving again from a derived region gives it back. *)
Theorem derived_region_has_no_digit_and_no_dot (e : string) :
  (forall a, In a (list_ascii_of_string (derive_region e)) ->
             is_digit a = false /\ a <> "."%char) /\
  derive_region (derive_region e) = derive_region e.
Proof.
  split; [apply derive_region_chars|].
  unfold derive_region. now rewrite first_segment_strip, strip_digits_idem.
Qed.

Lemma derived_region_has_no_digit_and_no_dot_witness :
  derive_region "us-east1.example.net" = "us-east" /\
  is_digit "t" = false /\ "t"%char <> "."%char.
Proof.
  split; [reflexivity|].
  apply (proj1 (derived_region_has_no_digit_and_no_dot "us-east1.example.net")).
  vm_compute. repeat (first [left; reflexivity | right]).
Defined.

End VoiceSignals.

(** ** Further properties of the request client *)

Section RequestAccounting.

Import Rest.

(** X16: the call counter counts responses: [makeRequest] issues
    exactly one request and adds one to [calls] unless the request
    failed before a response arrived; [updatePlayer] does the same for a
    patch that passes the check and neither issues nor counts anything
    for a patch it rejects. Session id and version are never changed. *)
Theorem calls_count_responses
    (reply : Reply) (method_ path_ : string) (body_ : option Body)
    (guildId : string) (b : Body) (r : t) (sent : list Request) :
  let m := snd (makeRequest reply method_ path_ body_ (r, sent)) in
  let u := snd (updatePlayer reply guildId b (r, sent)) in
  let ok := negb (track_conflict b || flat_conflict b) in
  calls (fst m) = calls r + Accounting.responded reply /\
  snd m = sent ++ [{| method := method_; path := path_; body := body_ |}] /\
  calls (fst u) = calls r + (if ok then Accounting.responded reply else 0) /\
  length (snd u) = (length sent + (if ok then 1 else 0))%nat /\
  sessionId (fst m) = sessionId r /\ version (fst m) = version r /\
  sessionId (fst u) = sessionId r /\ version (fst u) = version r.
Proof.
  destruct r as [sid ver n]. cbv zeta.
  unfold updatePlayer, makeRequest, bind, this, modify.
  destruct (track_conflict b || flat_conflict b); cbn;
    destruct reply; cbn; rewrite ?length_app; cbn;
    repeat apply conj; try reflexivity; lia.
Qed.

(** The body of the one request [updatePlayer] issued. *)
Lemma updatePlayer_body
    (reply : Reply) (guildId : string) (b : Body) (r : t) (sent : list Request) :
  track_conflict b || flat_conflict b = false ->
  exists path_,
    snd (snd (updatePlayer reply guildId b (r, sent)))
    = sent ++ [{| method := "PATCH"; path := path_;
                  body := Some (if String.eqb (version r) "v3"
                                then v3_body b else b) |}].
Proof.
  intros H. unfold updatePlayer. rewrite H.
  unfold makeRequest, bind, this, modify; cbn.
  destruct reply; eexists; reflexivity.
Qed.

(** X17: for the v3 protocol a patch that passes the check goes out
    without its [track] member: the token of that member travels as
    [encodedTrack] when there is one, otherwise its identifier travels
    as [identifier]; every other member is kept. For any other version
    the patch goes out as given. *)
Theorem v3_patch_is_flattened
    (reply : Reply) (guildId : string) (b : Body) (r : t) (sent : list Request) :
  ~ both_present b ->
  exists req,
    snd (snd (updatePlayer reply guildId b (r, sent))) = sent ++ [req] /\
    (version r <> "v3" -> body req = Some b) /\
    (version r = "v3" ->
     exists b', body req = Some b' /\
       track b' = None /\ others b' = others b /\
       forall tf, track b = Some tf ->
         (present (encoded tf) ->
          encodedTrack b' = encoded tf /\ top_identifier b' = top_identifier b) /\
         (~ present (encoded tf) ->
          top_identifier b' = identifier tf /\ encodedTrack b' = encodedTrack b)).
Proof.
  intros H.
  assert (Hc : track_conflict b || flat_conflict b = false).
  { destruct (_ || _) eqn:E; [|reflexivity].
    apply conflict_both_present in E. contradiction. }
  destruct (updatePlayer_body reply guildId b r sent Hc) as [path_ Hb].
  eexists. split; [exact Hb|]. cbn [body]. split.
  - intros Hv. apply String.eqb_neq in Hv. now rewrite Hv.
  - intros ->. cbn. eexists. split; [reflexivity|].
    unfold v3_body. destruct (track b) as [tf|] eqn:Et.
    + destruct (truthy (encoded tf)) eqn:Ee; cbn;
        (repeat apply conj; try reflexivity);
        intros tf' [= <-]; split; intros Hp;
        try (apply truthy_present in Hp; congruence);
        try (rewrite Ee; auto);
        try (exfalso; apply Hp, truthy_present, Ee); auto.
    + repeat apply conj; try reflexivity; try exact Et. intros tf [=].
Qed.

Lemma v3_patch_is_flattened_witness :
  let b := {| track := Some {| encoded := Some "QAAAAa"; identifier := None |};
              encodedTrack := None; top_identifier := None; others := [] |} in
  let r := {| sessionId := Some "s"; version := "v3"; calls := 0 |} in
  exists req b',
    snd (snd (updatePlayer (Answer VUndefined) "guild" b (r, []))) = [req] /\
    body req = Some b' /\ track b' = None /\ encodedTrack b' = Some "QAAAAa".
Proof.
  cbv zeta.
  destruct (v3_patch_is_flattened (Answer VUndefined) "guild"
    {| track := Some {| encoded := Some "QAAAAa"; identifier := None |};
       encodedTrack := None; top_identifier := None; others := [] |}
    {| sessionId := Some "s"; version := "v3"; calls := 0 |} [])
    as (req & Hs & _ & H3).
  { intros [(tf & [= <-] & _ & (s & H & _))|[(s & H & _) _]]; discriminate H. }
  destruct (H3 eq_refl) as (b' & Hb & Ht & _ & Htf).
  exists req, b'. repeat apply conj; [exact Hs | exact Hb | exact Ht |].
  apply (Htf _ eq_refl). exists "QAAAAa". split; [reflexivity|discriminate].
Defined.

End RequestAccounting.

(** ** Further properties of the node connection *)

Section NodeLifecycle.

Import Node.

Lemma destroy_sessions_unbound (self : NodeRef) (ps : list (string * Player.t)) :
  destroy_sessions player_node self ps = (ps, []).
Proof.
  induction ps as [|[g p] ps IH]; cbn; [reflexivity|].
  now rewrite IH.
Qed.

Lemma map_get_delete_eq {V} (k : string) (m : list (string * V)) :
  map_get k (map_delete k m) = None.
Proof.
  unfold map_delete. induction m as [|[k' v] m IH]; cbn; [reflexivity|].
  destruct (String.eqb k' k) eqn:E; cbn; [exact IH|].
  now rewrite E.
Qed.

Lemma map_get_delete_ne {V} (k k' : string) (m : list (string * V)) :
  k' <> k -> map_get k' (map_delete k m) = map_get k' m.
Proof.
  intros Hne. unfold map_delete.
  induction m as [|[k0 v] m IH]; cbn; [reflexivity|].
  destruct (String.eqb k0 k) eqn:E; cbn.
  - apply String.eqb_eq in E. subst k0.
    rewrite (proj2 (String.eqb_neq k k')) by congruence. exact IH.
  - destruct (String.eqb k0 k'); [reflexivity|exact IH].
Qed.

(** X18: a reconnect either schedules one retry or gives up, never
    both. While the attempt number stays below [reconnectTries] it adds
    exactly one timer, with delay [reconnectTimeout] times the attempt
    number, and leaves pool and event log alone; otherwise it adds no
    timer, reports the exhaustion and removes the node from the pool. *)
Theorem reconnect_schedules_or_gives_up (self : NodeRef) (w : World) :
  let n := heap w self in
  let k := reconnectAttempted n + 1 in
  let w' := snd (reconnect self w) in
  fst (reconnect self w) = Ok tt /\
  (k < reconnectTries n ->
   timers w' = timers w ++ [(reconnectTimeout n * k, self)] /\
   nodeMap w' = nodeMap w /\ events w' = events w /\
   sessions w' = sessions w) /\
  (reconnectTries n <= k ->
   timers w' = timers w /\
   map_get (name n) (nodeMap w') = None /\
   events w' = events w
               ++ [NodeError self ("Max reconnection attempts reached ("
                                   +:+ pretty (reconnectTries n) +:+ ")");
                   NodeDestroy self] /\
   sessions w' = sessions w /\
   connected (heap w' self) = false).
Proof.
  cbv zeta.
  unfold reconnect, reconnect_with, destroy_with, cleanup, when,
    bind, this, state, update, emit, emit_all, set_timers, set_nodeMap,
    set_sessions, modify; cbn.
  rewrite !Pos.eqb_refl; cbn.
  destruct (reconnectTries (heap w self) <=? reconnectAttempted (heap w self) + 1)
    eqn:E; cbn.
  - apply Z.leb_le in E. rewrite !Pos.eqb_refl; cbn.
    destruct (connected (heap w self)); cbn;
      rewrite ?destroy_sessions_unbound; cbn; rewrite ?Pos.eqb_refl; cbn;
      destruct (ws (heap w self)); cbn; rewrite ?Pos.eqb_refl; cbn;
      (split; [reflexivity|]); (split; [lia|]); intros _;
      rewrite ?app_nil_r, <- ?app_assoc; cbn;
      repeat apply conj; try reflexivity; apply map_get_delete_eq.
  - apply Z.leb_gt in E. split; [reflexivity|]. split; [|lia].
    intros _. repeat apply conj; reflexivity.
Qed.

Lemma reconnect_schedules_or_gives_up_witness :
  let w := exec_all [CConnect true; CClose 1006] 1%positive (Sample.world []) in
  timers w = [(2000, 1%positive)] /\
  timers (snd (reconnect 1%positive w)) = [(2000, 1%positive); (4000, 1%positive)].
Proof.
  cbv zeta. split; [vm_compute; reflexivity|].
  destruct (reconnect_schedules_or_gives_up 1%positive
              (exec_all [CConnect true; CClose 1006] 1%positive (Sample.world [])))
    as (_ & H & _).
  destruct (H ltac:(vm_compute; reflexivity)) as [Ht _].
  rewrite Ht. vm_compute. reflexivity.
Defined.

Lemma catch_ok {S A} (m : M S A) (h : Error -> M S A) (a : A) (s : S) :
  (forall x s', fst (m s) = Ok x -> snd (m s) = s' -> x = a) ->
  (forall e s', fst (h e s') = Ok a) ->
  fst (catch m h s) = Ok a.
Proof.
  intros Hm Hh. unfold catch. destruct (m s) as [[x|e] s'] eqn:E; cbn.
  - f_equal. eapply Hm; reflexivity.
  - apply Hh.
Qed.

Section PoolFrame.

Variable m0 : list (string * NodeRef).
Variable t0 : list (Z * NodeRef).

Lemma keep_pool_this self : preserves (Accounting.pool_is m0 t0) (this self).
Proof. intros w Hw; exact Hw. Qed.

Lemma keep_pool_update self f : preserves (Accounting.pool_is m0 t0) (update self f).
Proof. intros w Hw; exact Hw. Qed.

Lemma keep_pool_emit e : preserves (Accounting.pool_is m0 t0) (emit e).
Proof. intros w Hw; exact Hw. Qed.

Lemma keep_pool_emit_all evs : preserves (Accounting.pool_is m0 t0) (emit_all evs).
Proof. intros w Hw; exact Hw. Qed.

Lemma keep_pool_set_sessions ps :
  preserves (Accounting.pool_is m0 t0) (set_sessions ps).
Proof. intros w Hw; exact Hw. Qed.

Lemma keep_pool_onMessage f self :
  preserves (Accounting.pool_is m0 t0) (onMessage f self).
Proof.
  unfold onMessage, updateStats, handleReadyOp, handlePlayerOp, cleanupPlayer,
    deliver, when.
  repeat first
    [ solve [auto using keep_pool_this, keep_pool_update, keep_pool_emit,
               keep_pool_emit_all, keep_pool_set_sessions, preserves_ret,
               preserves_throw, preserves_state]
    | keep_step ].
Qed.

End PoolFrame.

Lemma onMessage_ok (f : Frame) (self : NodeRef) (w : World) :
  fst (onMessage f self w) = Ok tt.
Proof.
  unfold onMessage. apply catch_ok; [intros [] ? ? ?; reflexivity|reflexivity].
Qed.

Lemma deliver_handleEvent (g : string) (p : Player.t)
    (payload : Player.EventPayload) (w : World) :
  let r := Player.run (Player.handleEvent true payload) p in
  deliver g p (Player.handleEvent true payload) w
  = (Ok tt,
     {| heap := heap w; nodeMap := nodeMap w;
        sessions := map (fun kv : string * Player.t =>
                           if String.eqb (fst kv) g
                           then (fst kv, fst (snd r)) else kv) (sessions w);
        timers := timers w;
        events := events w ++ map (FromPlayer g) (snd (snd r));
        bypassNodeFetchInfo := bypassNodeFetchInfo w |}).
Proof.
  cbv zeta. unfold deliver, bind, state.
  pose proof (handleEvent_ok true payload (p, [])) as H.
  unfold Player.run.
  destruct (Player.handleEvent true payload (p, [])) as [[[]|e] [p' log]];
    [reflexivity|discriminate H].
Qed.

(** X19: [#onMessage] returns normally for every frame and every state,
    and no frame changes the pool, the pending timers or any node's
    reconnect-attempt counter. What is thrown inside its [try] is
    logged and nothing else happens: so for a frame that does not
    parse, for a stats frame one of whose blocks is [null], which leaves
    the snapshot as it was, and for an "error" frame addressed to a
    registered session. What the listener of a session leaves behind is
    not caught: after an "event" frame the events are those the handler
    produced, an unhandled rejection among them when the handler of the
    track end rejects, and no error is logged. *)
Theorem onMessage_logs_what_its_handlers_throw
    (f : Frame) (self r : NodeRef) (w : World) :
  let w' := snd (onMessage f self w) in
  let logged := snd (emit (NodeDebug "Message parse error") w) in
  fst (onMessage f self w) = Ok tt /\
  nodeMap w' = nodeMap w /\
  timers w' = timers w /\
  reconnectAttempted (heap w' r) = reconnectAttempted (heap w r) /\
  (f = Malformed -> w' = logged) /\
  (forall payload e,
     f = Parsed payload ->
     m_op payload = Some "stats" ->
     parse_stats (m_stats payload) = Throw e ->
     w' = logged) /\
  (forall payload g p,
     f = Parsed payload ->
     m_op payload = Some "error" ->
     m_guildId payload = Some g ->
     map_get g (sessions w) = Some p ->
     w' = logged) /\
  (forall payload g p,
     f = Parsed payload ->
     m_op payload = Some "event" ->
     m_guildId payload = Some g ->
     map_get g (sessions w) = Some p ->
     Player.listening p = true ->
     events w'
     = events w
       ++ map (FromPlayer g)
            (snd (snd (Player.run
                         (Player.handleEvent true (m_event payload)) p)))).
Proof.
  cbv zeta. repeat apply conj.
  - apply onMessage_ok.
  - apply (keep_pool_onMessage (nodeMap w) (timers w) f self w). split; reflexivity.
  - apply (keep_pool_onMessage (nodeMap w) (timers w) f self w). split; reflexivity.
  - apply (keep_node_onMessage (fun x => x = reconnectAttempted (heap w r)) r).
    reflexivity.
  - intros ->. reflexivity.
  - intros payload e -> Hop He. unfold onMessage, catch, updateStats.
    rewrite Hop; cbn. rewrite He. reflexivity.
  - intros payload g p -> Hop Hg Hp.
    unfold onMessage, catch, handlePlayerOp, bind, state.
    rewrite Hop, Hg; cbn. rewrite Hp. reflexivity.
  - intros payload g p -> Hop Hg Hp Hl.
    unfold onMessage, catch, handlePlayerOp, bind at 1, state.
    rewrite Hop, Hg; cbn -[deliver Player.handleEvent Player.run]. rewrite Hp, Hl.
    rewrite deliver_handleEvent. reflexivity.
Qed.

Lemma onMessage_logs_what_its_handlers_throw_witness :
  let last_track := Sample.playing LoopNone (ITrack Sample.trackA) [] in
  let w := Sample.world [("guild", last_track)] in
  let f := Parsed (Sample.event_frame "guild" (Sample.trackEndEvent "finished")) in
  let w' := snd (onMessage f 1%positive w) in
  fst (onMessage f 1%positive w) = Ok tt /\
  In (FromPlayer "guild" (Unhandled (Err "Player must be connected first.")))
     (events w') /\
  ~ In (NodeDebug "Message parse error") (events w') /\
  snd (onMessage Malformed 1%positive w)
  = snd (emit (NodeDebug "Message parse error") w).
Proof.
  cbv zeta.
  destruct (onMessage_logs_what_its_handlers_throw
              (Parsed (Sample.event_frame "guild" (Sample.trackEndEvent "finished")))
              1%positive 1%positive
              (Sample.world
                 [("guild", Sample.playing LoopNone (ITrack Sample.trackA) [])]))
    as (H1 & _ & _ & _ & _ & _ & _ & H8).
  specialize (H8 _ "guild" _ eq_refl eq_refl eq_refl eq_refl eq_refl).
  repeat apply conj.
  - exact H1.
  - rewrite H8. vm_compute. tauto.
  - rewrite H8. vm_compute. intros H.
    repeat (destruct H as [H|H]; [discriminate H|]). exact H.
  - apply (onMessage_logs_what_its_handlers_throw Malformed 1%positive 1%positive).
    reflexivity.
Defined.

Lemma map_get_replace (g g' : string) (p' : Player.t)
    (ps : list (string * Player.t)) :
  g' <> g ->
  map_get g' (map (fun kv : string * Player.t =>
                     if String.eqb (fst kv) g then (fst kv, p') else kv) ps)
  = map_get g' ps.
Proof.
  intros Hne. induction ps as [|[k v] ps IH]; cbn; [reflexivity|].
  destruct (String.eqb k g) eqn:E; cbn; rewrite IH; [|reflexivity].
  apply String.eqb_eq in E. subst k.
  now rewrite (proj2 (String.eqb_neq g g')) by congruence.
Qed.

Lemma deliver_keeps_the_others (g g' : string) (p : Player.t)
    (handler : Player.Method unit) (w : World) :
  g' <> g ->
  map_get g' (sessions (snd (deliver g p handler w))) = map_get g' (sessions w).
Proof.
  intros Hne. unfold deliver, bind, state; cbn.
  destruct (Player.run handler p) as [[[]|e] [p' log]]; cbn;
    now apply map_get_replace.
Qed.

Lemma cleanupPlayer_spec (g : string) (p : Player.t) (w : World) :
  let steps :=
    (Player.clearData >>
     Player.update (Player.set_listening false) >>
     Player.destroy)%js in
  let p' := fst (snd (Player.run steps p)) in
  Player.guildId p' = Player.guildId p /\
  cleanupPlayer g p w
  = (Ok tt,
     {| heap := heap w; nodeMap := nodeMap w;
        sessions :=
          map_delete (Player.guildId p)
            (map (fun kv : string * Player.t =>
                    if String.eqb (fst kv) g then (fst kv, p') else kv)
               (sessions w));
        timers := timers w;
        events := events w
                  ++ map (FromPlayer g) (snd (snd (Player.run steps p)))
                  ++ [FromPlayer g (Emit "playerDestroy" None)];
        bypassNodeFetchInfo := bypassNodeFetchInfo w |}).
Proof.
  cbv zeta. unfold cleanupPlayer.
  destruct (Player.run _ p) as [res [p' log]] eqn:E.
  assert (Hg : Player.guildId p' = Player.guildId p).
  { destruct p as [? ? ? ? ? ? ? ? ? ? ? ? c ? ? ? ? ? ? ? ?].
    unfold Player.run, Player.clearData, Player.destroy, Player.update,
      bind, Player.this, modify in E; cbn in E.
    destruct c; cbn in E; injection E as _ <- _; reflexivity. }
  cbn [fst snd]. split; [exact Hg|].
  unfold bind, state, set_sessions, emit_all, emit, modify; cbn.
  rewrite Hg, <- app_assoc. reflexivity.
Qed.

Lemma handlePlayerOp_eq (payload : Payload) (w : World) :
  handlePlayerOp payload w
  = match m_guildId payload with
    | None => (Ok tt, w)
    | Some key =>
        match map_get key (sessions w) with
        | None => (Ok tt, w)
        | Some p =>
            let op := default "" (m_op payload) in
            if String.eqb op "event" then
              if Player.listening p
              then deliver key p
                     (Player.handleEvent true (m_event payload)) w
              else (Ok tt, w)
            else if String.eqb op "playerUpdate" then
              if Player.listening p
              then deliver key p
                     (Player.onPlayerUpdate (m_state payload)) w
              else (Ok tt, w)
            else if String.eqb op "destroy" then cleanupPlayer key p w
            else if String.eqb op "error"
                 then (Throw (Err "Unhandled error."), w)
            else (Ok tt, w)
        end
    end.
Proof.
  unfold handlePlayerOp, bind at 1, state.
  destruct (m_guildId payload) as [key|]; [|reflexivity].
  cbn [fst snd]. destruct (map_get key (sessions w)) as [p|]; [|reflexivity].
  cbv zeta.
  repeat match goal with
         | |- context [if ?b then _ else _] => destruct b
         end; reflexivity.
Qed.

(** X20: a session-scoped frame acts on the session registered under
    its guild id and on no other. A frame without a guild id, or for a
    guild without a session, changes nothing. For a registered session:
    an "event" or "playerUpdate" frame changes nothing once the
    session's own listeners are gone; an "error" frame throws and
    changes nothing; a "destroy" frame runs the registry's clean-up,
    after which no session is registered under that guild id and
    "playerDestroy" is the last event; a frame with any other name
    changes nothing; and whatever the frame, the sessions of the other
    guilds are as they were. *)
Theorem session_frames_reach_only_their_session
    (payload : Payload) (g' : string) (w : World) :
  let op := default "" (m_op payload) in
  let r := handlePlayerOp payload w in
  let w' := snd r in
  (m_guildId payload = None -> r = (Ok tt, w)) /\
  (forall g,
     m_guildId payload = Some g -> map_get g (sessions w) = None ->
     r = (Ok tt, w)) /\
  (forall g p,
     m_guildId payload = Some g -> map_get g (sessions w) = Some p ->
     (Player.listening p = false -> op = "event" \/ op = "playerUpdate" ->
      r = (Ok tt, w)) /\
     (op = "error" -> r = (Throw (Err "Unhandled error."), w)) /\
     (op = "destroy" ->
      fst r = Ok tt /\
      map_get (Player.guildId p) (sessions w') = None /\
      events w'
      = events w
        ++ map (FromPlayer g)
             (snd (snd (Player.run
                          (Player.clearData >>
                           Player.update (Player.set_listening false) >>
                           Player.destroy)%js p)))
        ++ [FromPlayer g (Emit "playerDestroy" None)]) /\
     (op <> "event" -> op <> "playerUpdate" -> op <> "destroy" ->
      op <> "error" -> r = (Ok tt, w)) /\
     (Player.guildId p = g -> g' <> g ->
      map_get g' (sessions w') = map_get g' (sessions w))).
Proof.
  cbv zeta. rewrite handlePlayerOp_eq.
  repeat apply conj.
  - intros ->. reflexivity.
  - intros g -> ->. reflexivity.
  - intros g p -> ->. cbv zeta. repeat apply conj.
    + intros -> [->| ->]; reflexivity.
    + intros ->. reflexivity.
    + intros ->. cbn [String.eqb Ascii.eqb Bool.eqb].
      destruct (cleanupPlayer_spec g p w) as [Hg ->]. cbn [fst snd sessions events].
      repeat apply conj; try reflexivity. apply map_get_delete_eq.
    + intros H1 H2 H3 H4.
      apply String.eqb_neq in H1, H2, H3, H4. rewrite H1, H2, H3, H4.
      reflexivity.
    + intros Hg Hne.
      destruct (String.eqb _ "event");
        [destruct (Player.listening p);
           [now apply deliver_keeps_the_others|reflexivity]|].
      destruct (String.eqb _ "playerUpdate");
        [destruct (Player.listening p);
           [now apply deliver_keeps_the_others|reflexivity]|].
      destruct (String.eqb _ "destroy");
        [|destruct (String.eqb _ "error"); reflexivity].
      destruct (cleanupPlayer_spec g p w) as [_ ->]. cbn [snd sessions].
      rewrite Hg, map_get_delete_ne by exact Hne.
      now apply map_get_replace.
Qed.

Lemma session_frames_reach_only_their_session_witness :
  let w := Sample.world [("guild", Sample.bound_session);
                         ("other", Sample.bound_session)] in
  handlePlayerOp (Sample.frame "destroy" (Some "elsewhere")) w = (Ok tt, w) /\
  handlePlayerOp (Sample.frame "error" (Some "guild")) w
  = (Throw (Err "Unhandled error."), w) /\
  let w' := snd (handlePlayerOp (Sample.frame "destroy" (Some "guild")) w) in
  map_get "guild" (sessions w') = None /\
  map_get "other" (sessions w') = Some Sample.bound_session.
Proof.
  cbv zeta.
  pose proof (session_frames_reach_only_their_session
                (Sample.frame "destroy" (Some "elsewhere")) "other"
                (Sample.world [("guild", Sample.bound_session);
                               ("other", Sample.bound_session)]))
    as (_ & H1 & _).
  pose proof (session_frames_reach_only_their_session
                (Sample.frame "error" (Some "guild")) "other"
                (Sample.world [("guild", Sample.bound_session);
                               ("other", Sample.bound_session)]))
    as (_ & _ & H2).
  pose proof (session_frames_reach_only_their_session
                (Sample.frame "destroy" (Some "guild")) "other"
                (Sample.world [("guild", Sample.bound_session);
                               ("other", Sample.bound_session)]))
    as (_ & _ & H3).
  destruct (H2 "guild" Sample.bound_session eq_refl eq_refl)
    as (_ & H2' & _).
  destruct (H3 "guild" Sample.bound_session eq_refl eq_refl)
    as (_ & _ & H3' & _ & H3'').
  destruct (H3' eq_refl) as (_ & Hgone & _).
  repeat apply conj.
  - apply (H1 "elsewhere"); reflexivity.
  - apply H2'. reflexivity.
  - exact Hgone.
  - rewrite H3'' by (reflexivity || discriminate). reflexivity.
Defined.

End NodeLifecycle.

Section NodeState.

Import Node.

(** X21: a fetch whose reply is a document without a [null] block
    replaces the snapshot and starts the cooldown: within 60000 time
    units of it [getStats()] answers with the snapshot of that fetch,
    without a request and without changing the node, even when a stats
    frame has replaced the node's snapshot in between. A fetch that
    fails, whose reply does not decode, or whose document has a [null]
    block answers with the snapshot the node had, leaves snapshot and
    cache as they were and starts no cooldown; the last two have
    counted a request. A falsy document keeps the snapshot and starts
    the cooldown. *)
Theorem getStats_serves_the_cache_during_cooldown
    (now now' : Z) (fetched : StatsPayload) (st : Stats)
    (frame : option StatsPayload) (reply : StatsReply)
    (self : NodeRef) (w : World) :
  60000 <= now - lastStatsRequest (heap w self) ->
  now' - now < 60000 ->
  parse_stats fetched = Ok st ->
  let w1 := snd (getStats now (StatsAnswer (Some fetched)) self w) in
  let w2 := snd (updateStats frame self w1) in
  fst (getStats now (StatsAnswer (Some fetched)) self w) = Ok st /\
  stats (heap w1 self) = st /\
  lastStatsRequest (heap w1 self) = now /\
  getStats now' reply self w1 = (Ok st, w1) /\
  getStats now' reply self w2 = (Ok st, w2) /\
  (forall bad e,
     bad = StatsFailed e \/ bad = StatsGarbled e \/
     (exists doc, bad = StatsAnswer (Some doc) /\ parse_stats doc = Throw e) ->
     let w0 := snd (getStats now bad self w) in
     fst (getStats now bad self w) = Ok (stats (heap w self)) /\
     stats (heap w0 self) = stats (heap w self) /\
     statsCache (heap w0 self) = statsCache (heap w self) /\
     lastStatsRequest (heap w0 self) = lastStatsRequest (heap w self) /\
     Rest.calls (rest (heap w0 self))
     = Rest.calls (rest (heap w self))
       + (match bad with StatsFailed _ => 0 | _ => 1 end)) /\
  (let w0 := snd (getStats now (StatsAnswer None) self w) in
   stats (heap w0 self) = stats (heap w self) /\
   lastStatsRequest (heap w0 self) = now).
Proof.
  intros H1 H2 Hst. cbv zeta.
  apply Z.ltb_ge in H1. apply Z.ltb_lt in H2.
  repeat apply conj.
  1-5: unfold getStats, updateStats, catch, bind, this, update, emit, modify;
    cbn; rewrite H1; cbn; rewrite Hst; cbn; rewrite !Pos.eqb_refl; cbn;
    try reflexivity.
  - rewrite H2. reflexivity.
  - destruct frame as [doc|]; cbn; [destruct (parse_stats doc); cbn|];
      rewrite ?Pos.eqb_refl; cbn; rewrite H2; reflexivity.
  - intros bad e [-> | [-> | (doc & -> & Hdoc)]];
      unfold getStats, updateStats, catch, bind, this, update, emit, modify;
      cbn; rewrite H1; cbn; rewrite ?Hdoc; cbn; rewrite ?Pos.eqb_refl; cbn;
      repeat apply conj; try reflexivity; lia.
  - unfold getStats, updateStats, catch, bind, this, update, emit, modify;
      cbn; rewrite H1; cbn; rewrite !Pos.eqb_refl; reflexivity.
  - unfold getStats, updateStats, catch, bind, this, update, emit, modify;
      cbn; rewrite H1; cbn; rewrite !Pos.eqb_refl; reflexivity.
Qed.

Lemma getStats_serves_the_cache_during_cooldown_witness :
  let fetched :=
    {| p_players := Some 3; p_playingPlayers := Some 2; p_uptime := None;
       p_ping := None; p_memory := Missing;
       p_cpu := Obj {| p_cores := Some 4; p_systemLoad := None;
                       p_lavalinkLoad := None |};
       p_frameStats := Obj {| p_sent := None; p_nulled := None;
                              p_deficit := Some 1 |} |} in
  let frame :=
    {| p_players := Some 9; p_playingPlayers := None; p_uptime := None;
       p_ping := None; p_memory := Missing; p_cpu := Missing;
       p_frameStats := Missing |} in
  let broken :=
    {| p_players := Some 9; p_playingPlayers := None; p_uptime := None;
       p_ping := None; p_memory := Missing; p_cpu := Missing;
       p_frameStats := Null |} in
  let w := Sample.world [] in
  let w1 := snd (getStats 1700000000000 (StatsAnswer (Some fetched)) 1%positive w) in
  let w2 := snd (updateStats (Some frame) 1%positive w1) in
  players (stats (heap w2 1%positive)) = 9 /\
  option_map players
    (match fst (getStats 1700000001000 (StatsFailed (Err "timeout"))
                  1%positive w2) with
     | Ok st => Some st | Throw _ => None end) = Some 3 /\
  lastStatsRequest
    (heap (snd (getStats 1700000000000 (StatsAnswer (Some broken))
                  1%positive w)) 1%positive) = 0.
Proof.
  cbv zeta.
  destruct (getStats_serves_the_cache_during_cooldown
    1700000000000 1700000001000
    {| p_players := Some 3; p_playingPlayers := Some 2; p_uptime := None;
       p_ping := None; p_memory := Missing;
       p_cpu := Obj {| p_cores := Some 4; p_systemLoad := None;
                       p_lavalinkLoad := None |};
       p_frameStats := Obj {| p_sent := None; p_nulled := None;
                              p_deficit := Some 1 |} |}
    {| players := 3; playingPlayers := 2; uptime := 0; ping := 0;
       cores := 4; systemLoad := 0%Q; lavalinkLoad := 0%Q;
       sent := 0; nulled := 0; deficit := 1 |}
    (Some {| p_players := Some 9; p_playingPlayers := None; p_uptime := None;
             p_ping := None; p_memory := Missing; p_cpu := Missing;
             p_frameStats := Missing |})
    (StatsFailed (Err "timeout")) 1%positive (Sample.world [])
    ltac:(vm_compute; discriminate) ltac:(reflexivity) eq_refl)
    as (_ & _ & _ & _ & H & Hbad & _).
  repeat apply conj.
  - reflexivity.
  - rewrite H. reflexivity.
  - destruct (Hbad
      (StatsAnswer
         (Some {| p_players := Some 9; p_playingPlayers := None;
                  p_uptime := None; p_ping := None; p_memory := Missing;
                  p_cpu := Missing; p_frameStats := Null |}))
      (TypeErr "Cannot read properties of null (reading 'sent')")
      (or_intror (or_intror (ex_intro _ _ (conj eq_refl eq_refl)))))
      as (_ & _ & _ & H4 & _).
    rewrite H4. reflexivity.
Defined.

Section SessionId.

Variable r : NodeRef.

Lemma keep_sync_this self : preserves (Accounting.in_sync_at r) (this self).
Proof. intros w Hw; exact Hw. Qed.

Lemma keep_sync_update self f :
  (forall n, Accounting.in_sync n -> Accounting.in_sync (f n)) ->
  preserves (Accounting.in_sync_at r) (update self f).
Proof.
  intros Hf w Hw. unfold Accounting.in_sync_at in *; cbn.
  destruct (Pos.eqb r self); [apply Hf|]; exact Hw.
Qed.

Lemma keep_sync_emit e : preserves (Accounting.in_sync_at r) (emit e).
Proof. intros w Hw; exact Hw. Qed.

Lemma keep_sync_emit_all evs : preserves (Accounting.in_sync_at r) (emit_all evs).
Proof. intros w Hw; exact Hw. Qed.

Lemma keep_sync_set_nodeMap m : preserves (Accounting.in_sync_at r) (set_nodeMap m).
Proof. intros w Hw; exact Hw. Qed.

Lemma keep_sync_set_sessions ps :
  preserves (Accounting.in_sync_at r) (set_sessions ps).
Proof. intros w Hw; exact Hw. Qed.

Lemma keep_sync_set_timers ts : preserves (Accounting.in_sync_at r) (set_timers ts).
Proof. intros w Hw; exact Hw. Qed.

(** The two assignments of [#handleReadyOp] restore the property
    together. *)
Lemma keep_sync_handleReadyOp sid self :
  preserves (Accounting.in_sync_at r) (handleReadyOp sid self).
Proof.
  intros w Hw. unfold Accounting.in_sync_at, Accounting.in_sync in *.
  unfold handleReadyOp, when, bind, this, update, emit, modify; cbn.
  destruct (bool_decide _); cbn; [exact Hw|].
  destruct (Pos.eqb r self); cbn; [reflexivity|exact Hw].
Qed.

Hint Resolve keep_sync_this keep_sync_emit keep_sync_emit_all
  keep_sync_set_nodeMap keep_sync_set_sessions keep_sync_set_timers
  keep_sync_handleReadyOp : keep.

Ltac keep_sync :=
  repeat first
    [ solve [auto with keep]
    | solve [apply keep_sync_update; intros ? ?; assumption]
    | keep_step
    | progress unfold when ].

Lemma keep_sync_call c self : preserves (Accounting.in_sync_at r) (call c self).
Proof.
  destruct c as [opens|opens|reply|msg|code|f|now reply|clean]; cbn [call];
    try destruct f;
    unfold connect, fire_timer, onOpen, onError, onClose, onClose_with,
      onMessage, getStats, updateStats, handlePlayerOp, cleanupPlayer,
      deliver, destroy, reconnect, reconnect_with, destroy_with, cleanup,
      when;
    keep_sync.
Qed.

End SessionId.

(** X22: the request client always addresses the session the node
    holds: a node is constructed with the two session ids equal, every
    operation of a node connection keeps them equal on every node, and
    after a ready frame both are the id the engine assigned. *)
Theorem rest_session_id_follows_the_node
    (cfg : NodeConfig) (o : NodeOptions) (c : Call) (sid : option string)
    (self : NodeRef) (w : World) :
  Accounting.in_sync (new cfg o) /\
  (Accounting.all_in_sync w ->
   Accounting.all_in_sync (exec c self w) /\
   let w' := snd (handleReadyOp sid self w) in
   sessionId (heap w' self) = sid /\
   Rest.sessionId (rest (heap w' self)) = sid).
Proof.
  split; [reflexivity|]. intros Hw. split.
  - intros r. apply keep_sync_call, Hw.
  - specialize (Hw self).
    unfold Accounting.in_sync_at, Accounting.in_sync in Hw. cbv zeta.
    unfold handleReadyOp, when, bind, this, update, emit, modify; cbn.
    destruct (bool_decide (sessionId (heap w self) = sid)) eqn:E; cbn.
    + apply bool_decide_eq_true_1 in E. rewrite Hw. auto.
    + rewrite Pos.eqb_refl. cbn. auto.
Qed.

Lemma rest_session_id_follows_the_node_witness :
  let w := exec (CMessage (Sample.ready (Some "abc"))) 1%positive (Sample.world []) in
  Accounting.all_in_sync w /\
  Rest.sessionId (rest (heap w 1%positive)) = Some "abc".
Proof.
  cbv zeta.
  destruct (rest_session_id_follows_the_node
              {| c_name := None; c_host := None; c_port := None;
                 c_sessionId := None; c_regions := None |}
              {| o_resumeKey := None; o_resumeTimeout := None;
                 o_autoResume := None; o_reconnectTimeout := None;
                 o_reconnectTries := None |}
              (CMessage (Sample.ready (Some "abc"))) (Some "abc")
              1%positive (Sample.world [])) as [_ H].
  destruct (H ltac:(intros r; reflexivity)) as [H1 [_ H2]].
  split; [exact H1|exact H2].
Defined.

(** X23: a full [destroy()] never throws; it takes the node out of the
    pool under its name, marks it disconnected, drops its socket and
    resets info, cache and health snapshot to their initial values. It
    does not touch the reconnect-attempt counter, the sessions or the
    pending retry timers. *)
Theorem full_destroy_removes_and_resets (self : NodeRef) (w : World) :
  let n := heap w self in
  let w' := snd (destroy false self w) in
  fst (destroy false self w) = Ok tt /\
  map_get (name n) (nodeMap w') = None /\
  connected (heap w' self) = false /\
  ws (heap w' self) = false /\
  stats (heap w' self) = createStats /\
  info (heap w' self) = None /\
  statsCache (heap w' self) = None /\
  reconnectAttempted (heap w' self) = reconnectAttempted n /\
  sessions w' = sessions w /\
  timers w' = timers w.
Proof.
  cbv zeta.
  unfold destroy, destroy_with, cleanup, when,
    bind, this, state, update, emit, emit_all, set_nodeMap,
    set_sessions, modify; cbn.
  destruct (connected (heap w self)) eqn:Hc, (ws (heap w self)) eqn:Hws; cbn;
    rewrite ?destroy_sessions_unbound; cbn; rewrite ?Pos.eqb_refl; cbn;
    rewrite ?Hws; cbn; rewrite ?Pos.eqb_refl; cbn;
    repeat apply conj; try reflexivity; try exact Hws;
    apply map_get_delete_eq.
Qed.

(** X24: [destroy()] cancels nothing: a retry that was pending still
    fires, announces a reconnect and opens a socket for the node, which
    is no longer in the pool. *)
Theorem destroy_leaves_the_retry_armed
    (self : NodeRef) (delay : Z) (ts : list (Z * NodeRef)) (w : World) :
  timers w = (delay, self) :: ts ->
  let w1 := snd (destroy false self w) in
  let w2 := snd (fire_timer true w1) in
  ws (heap w2 self) = true /\
  map_get (name (heap w self)) (nodeMap w2) = None /\
  timers w2 = ts /\
  exists evs, events w2 = events w1 ++ NodeReconnect self :: evs.
Proof.
  intros Ht.
  destruct (full_destroy_removes_and_resets self w)
    as (_ & Hm & _ & _ & _ & _ & _ & _ & _ & Htm).
  cbv zeta in *.
  set (w1 := snd (destroy false self w)) in *. clearbody w1.
  rewrite Ht in Htm.
  unfold fire_timer, connect, cleanup, when, bind, this, state, update,
    emit, set_timers, modify; cbn. rewrite Htm; cbn.
  destruct (ws (heap w1 self)); cbn; rewrite ?Pos.eqb_refl; cbn;
    (repeat apply conj; [reflexivity | exact Hm | reflexivity |]);
    eexists; rewrite <- app_assoc; reflexivity.
Qed.

Lemma destroy_leaves_the_retry_armed_witness :
  let w := exec_all [CConnect true; CClose 1006] 1%positive (Sample.world []) in
  let w2 := snd (fire_timer true (snd (destroy false 1%positive w))) in
  ws (heap w2 1%positive) = true /\ nodeMap w2 = [].
Proof.
  cbv zeta. split; [|vm_compute; reflexivity].
  apply (destroy_leaves_the_retry_armed 1%positive 2000 []
           (exec_all [CConnect true; CClose 1006] 1%positive (Sample.world []))).
  vm_compute. reflexivity.
Defined.

End NodeState.

(** ** Further properties of the registry and the pool *)

Section RegistryAndPool.

Import Node.



(** X26: the node taken for a new session, the first of the selection,
    is connected and has served no more requests than any other node of
    the selection; nodes that have served equally many requests come in
    the order in which they were added to the pool. *)
Theorem first_selected_node_is_least_used
    (w : World) (k : Z) (best : NodeRef) (others : list NodeRef) :
  List.filter (fun r => Aqua.calls_of w r =? k) (Aqua.leastUsedNodes w)
  = List.filter (fun r => Aqua.calls_of w r =? k)
      (List.filter (Aqua.is_connected w) (Aqua.values w)) /\
  (Aqua.leastUsedNodes w = best :: others ->
   Aqua.is_connected w best = true /\
   Forall (fun r => Aqua.calls_of w best <= Aqua.calls_of w r) others).
Proof.
  rewrite leastUsedNodes_sort. split; [apply sort_by_stable|].
  intros H.
  pose proof (sort_by_sorted (Aqua.calls_of w)
                (List.filter (Aqua.is_connected w) (Aqua.values w))) as Hs.
  pose proof (sort_by_perm (Aqua.calls_of w)
                (List.filter (Aqua.is_connected w) (Aqua.values w))) as Hp.
  rewrite H in Hs, Hp. split.
  - assert (Hin : In best (List.filter (Aqua.is_connected w) (Aqua.values w))).
    { eapply Permutation_in; [exact Hp|]. now left. }
    now apply filter_In in Hin.
  - inversion Hs as [|? ? _ Hall]. exact Hall.
Qed.

Lemma first_selected_node_is_least_used_witness :
  Aqua.is_connected Sample.two_nodes 1%positive = true /\
  Forall (fun r => Aqua.calls_of Sample.two_nodes 1%positive
                   <= Aqua.calls_of Sample.two_nodes r) [2%positive].
Proof.
  apply (first_selected_node_is_least_used Sample.two_nodes 0
           1%positive [2%positive]).
  vm_compute. reflexivity.
Defined.

End RegistryAndPool.
